(** * Music collection processor: keyword engine, column detection, links

    A shallow embedding of [music_collection_processor.py]
    (class [CollectionProcessor]) together with the properties its
    specification states about it.

    Python [str] values are sequences of code points.  The embedding
    represents the code points U+0000..U+00FF by [ascii] and a string by
    [list ascii]; the character classes used by [re] and [str] follow
    CPython on that range (so [\w] holds of the Latin-1 letters and
    numerics, [\s] of U+0085 and U+00A0, and so on). *)

From Stdlib Require Import ZArith NArith Ascii String List Lia Bool.
From stdpp Require Import base option list gmap strings pretty.

#[local] Set Warnings "-clear-no-such-hyp".

Local Open Scope string_scope.
Local Open Scope list_scope.
Local Open Scope nat_scope.

Abbreviation pystr := (list ascii).

(** String literals are read as Python strings. *)
Coercion list_ascii_of_string : string >-> list.

(** ** Python string primitives *)
Module Py.

Definition code (c : ascii) : N := N_of_ascii c.

Definition in_range (lo hi : N) (c : ascii) : bool :=
  ((lo <=? code c) && (code c <=? hi))%N.

(** [str.isspace], which is also the class [\s] of [re] on [str]
    patterns and the set removed by [str.strip()]. *)
Definition isspace (c : ascii) : bool :=
  in_range 9 13 c || in_range 28 32 c || in_range 133 133 c
  || in_range 160 160 c.

(** [str.isalnum]. *)
Definition isalnum (c : ascii) : bool :=
  in_range 48 57 c || in_range 65 90 c || in_range 97 122 c
  || in_range 170 170 c || in_range 178 179 c || in_range 181 181 c
  || in_range 185 186 c || in_range 188 190 c || in_range 192 214 c
  || in_range 216 246 c || in_range 248 255 c.

(** The class [\w] of [re]: alphanumeric or underscore. *)
Definition isword (c : ascii) : bool :=
  isalnum c || in_range 95 95 c.

(** Characters with an upper-case form that [str.lower] changes. *)
Definition isupper (c : ascii) : bool :=
  in_range 65 90 c || in_range 192 214 c || in_range 216 222 c.

(** Characters that count as cased for [str.title]. *)
Definition iscased (c : ascii) : bool :=
  in_range 65 90 c || in_range 97 122 c || in_range 170 170 c
  || in_range 181 181 c || in_range 186 186 c || in_range 192 214 c
  || in_range 216 246 c || in_range 248 255 c.

Definition lower_char (c : ascii) : ascii :=
  if isupper c then ascii_of_N (code c + 32) else c.

(** Title-case form of one character: the upper-case letter of a
    lower-case one, the two letters [Ss] for U+00DF, the character
    itself otherwise.  The title-case forms of U+00B5 and U+00FF (U+039C
    and U+0178) lie beyond U+00FF, where the embedding has no
    characters: the result is [None] for these two. *)
Definition title_char (c : ascii) : option pystr :=
  if in_range 181 181 c || in_range 255 255 c then None
  else if in_range 223 223 c then Some (list_ascii_of_string "Ss")
  else if in_range 97 122 c || in_range 224 246 c || in_range 248 254 c
  then Some [ascii_of_N (code c - 32)] else Some [c].

(** [s.lower()] *)
Definition lower (s : pystr) : pystr := map lower_char s.

(** [s.title()]: a character that follows a cased character is
    lower-cased, any other character is title-cased.  [None] when the
    result has a character beyond U+00FF. *)
Fixpoint title_from (previous_is_cased : bool) (s : pystr) : option pystr :=
  match s with
  | [] => Some []
  | c :: r =>
      match (if previous_is_cased then Some [lower_char c] else title_char c),
            title_from (iscased c) r with
      | Some first, Some rest => Some (first ++ rest)
      | _, _ => None
      end
  end.

Definition title (s : pystr) : option pystr := title_from false s.

(** [s.strip()] *)
Fixpoint lstrip (s : pystr) : pystr :=
  match s with
  | [] => []
  | c :: r => if isspace c then lstrip r else s
  end.

Definition rstrip (s : pystr) : pystr := rev (lstrip (rev s)).

Definition strip (s : pystr) : pystr := rstrip (lstrip s).

(** [s.split()]: the maximal runs of non-whitespace characters.
    [split_go s] returns the run that starts at the head of [s] (empty
    when [s] starts with whitespace) and the runs after it. *)
Definition push_word (w : pystr) (ws : list pystr) : list pystr :=
  match w with
  | [] => ws
  | _ :: _ => w :: ws
  end.

Fixpoint split_go (s : pystr) : pystr * list pystr :=
  match s with
  | [] => ([], [])
  | c :: r =>
      let '(w, ws) := split_go r in
      if isspace c then ([], push_word w ws) else (c :: w, ws)
  end.

Definition split (s : pystr) : list pystr :=
  let '(w, ws) := split_go s in push_word w ws.

(** [sep.join(ws)] *)
Fixpoint join (sep : pystr) (ws : list pystr) : pystr :=
  match ws with
  | [] => []
  | [w] => w
  | w :: r => w ++ sep ++ join sep r
  end.

(** [x in l] for a list (or set) of strings. *)
Definition contains (l : list pystr) (x : pystr) : bool :=
  bool_decide (x ∈ l).

End Py.

(** ** The three substitutions of [clean_text] *)
Module Re.

Definition is_open (c : ascii) : bool :=
  bool_decide (c ∈ list_ascii_of_string "([{").

Definition is_close (c : ascii) : bool :=
  bool_decide (c ∈ list_ascii_of_string ")]}").

(** [.] matches every character except the line feed. *)
Definition is_dot (c : ascii) : bool := negb (Py.in_range 10 10 c).

(** Does [.*?[\)\]\}]] match at the head of [s]?  The lazy [.*?] stops
    at the first closing bracket; a line feed before it makes the match
    fail. *)
Fixpoint closes (s : pystr) : bool :=
  match s with
  | [] => false
  | c :: r => if is_close c then true else is_dot c && closes r
  end.

(** [re.sub(r'[\(\[\{].*?[\)\]\}]', '', s)]: scanning from the left, an
    opening bracket that [closes] starts a match, which runs up to and
    including the first closing bracket; matched text is dropped and
    the scan resumes after it.  [inside] tells whether the scan is
    within a match. *)
Fixpoint sub_brackets_from (inside : bool) (s : pystr) : pystr :=
  match s with
  | [] => []
  | c :: r =>
      if inside then
        sub_brackets_from (negb (is_close c)) r
      else if is_open c && closes r then
        sub_brackets_from true r
      else
        c :: sub_brackets_from false r
  end.

Definition sub_brackets (s : pystr) : pystr := sub_brackets_from false s.

(** [re.sub(r'[^\w\s\-]', ' ', s)] *)
Definition is_kept (c : ascii) : bool :=
  Py.isword c || Py.isspace c || Py.in_range 45 45 c.

Definition sub_special (s : pystr) : pystr :=
  map (fun c => if is_kept c then c else " "%char) s.

(** [re.sub(r'\s+', ' ', s)]: every maximal run of whitespace becomes
    one space.  [in_run] tells whether the previous character was
    whitespace. *)
Fixpoint sub_spaces_from (in_run : bool) (s : pystr) : pystr :=
  match s with
  | [] => []
  | c :: r =>
      if Py.isspace c then
        if in_run then sub_spaces_from true r
        else " "%char :: sub_spaces_from true r
      else c :: sub_spaces_from false r
  end.

Definition sub_spaces (s : pystr) : pystr := sub_spaces_from false s.

End Re.

(** ** Values of a table cell *)

(** A cell of a text column is a string or missing ([NaN]); the callers
    may also pass [None].  Cells of numeric columns are not part of the
    embedding. *)
Inductive value : Type :=
  | VNone
  | VNaN
  | VStr (s : pystr).

(** [pd.isna(text) or not text] *)
Definition is_blank (text : value) : bool :=
  match text with
  | VNone | VNaN => true
  | VStr s => bool_decide (s = [])
  end.

(** [str(text)] for a value that is not blank. *)
Definition to_str (text : value) : pystr :=
  match text with
  | VNone => "None"
  | VNaN => "nan"
  | VStr s => s
  end.

(** [CollectionProcessor.clean_text] *)
Definition clean_text (text : value) : pystr :=
  if is_blank text then []
  else
    let text := Py.lower (to_str text) in
    let text := Re.sub_brackets text in
    let text := Re.sub_special text in
    Py.strip (Re.sub_spaces text).


(** ** Configuration *)

(** The entries of the configuration dictionary that the processor
    reads. *)
Record Config : Type := {
  artist_columns : list pystr;
  title_columns : list pystr;
  max_keywords : Z;
  search_engines : gmap pystr pystr;
  default_search_engine : pystr;
  stopwords : list pystr
}.

Definition DEFAULT_CONFIG : Config := {|
  artist_columns := ["Artist" : pystr; "artist" : pystr; "Artist Name" : pystr; "artist_name" : pystr];
  title_columns :=
    ["Title" : pystr; "title" : pystr; "Album" : pystr; "album" : pystr;
     "Release Title" : pystr; "release_title" : pystr];
  max_keywords := 5;
  search_engines :=
    list_to_map
      [("wikipedia" : pystr, "https://en.wikipedia.org/wiki/Special:Search?search={query}" : pystr);
       ("spotify" : pystr, "https://open.spotify.com/search/{query}" : pystr);
       ("youtube" : pystr, "https://www.youtube.com/results?search_query={query}" : pystr);
       ("discogs" : pystr, "https://www.discogs.com/search/?q={query}" : pystr);
       ("allmusic" : pystr, "https://www.allmusic.com/search/all/{query}" : pystr);
       ("musicbrainz" : pystr, "https://musicbrainz.org/search?query={query}&type=release" : pystr)];
  default_search_engine := "wikipedia";
  stopwords :=
    map list_ascii_of_string
      ["the"; "a"; "an"; "of"; "and"; "is"; "are"; "was"; "were"; "at"; "on"; "in";
       "to"; "for"; "with"; "without"; "how"; "do"; "does"; "did"; "i"; "am"; "be";
       "by"; "from"; "that"; "it's"; "its"; "you"; "we"; "this"; "those"; "these";
       "as"; "up"; "out"; "off"; "will"; "my"; "your"; "our"; "not"; "yes"; "no";
       "vol"; "volume"; "part"; "feat"; "featuring"; "original"; "soundtrack"; "ost";
       "single"; "ep"; "lp"; "cd"; "vinyl"; "remaster"; "remastered"; "deluxe"; "edition"]
|}.

(** [self.stopwords], computed by [__init__]. *)
Definition self_stopwords (cfg : Config) : gset pystr :=
  list_to_set (Py.lower <$> stopwords cfg).

(** ** Keyword extraction *)

(** [max_words or self.config["max_keywords"]]: [None] and [0] are
    falsy. *)
Definition or_max_keywords (max_words : option Z) (cfg : Config) : Z :=
  match max_words with
  | Some n => if (n =? 0)%Z then max_keywords cfg else n
  | None => max_keywords cfg
  end.

(** The loop that fills [artist_words] and [title_words]: one step per
    word of the cleaned text. *)
Definition keep_word (stop : gset pystr) (words : list pystr) (word : pystr)
  : list pystr :=
  if negb (bool_decide (word ∈ stop)) && negb (Py.contains words word)
     && (1 <? length word)%nat
  then words ++ [word] else words.

Definition field_words (cfg : Config) (clean : pystr) : list pystr :=
  fold_left (keep_word (self_stopwords cfg)) (Py.split clean) [].

(** The "Various Artists" case. *)
Definition VARIOUS : list pystr :=
  ["various" : pystr; "va" : pystr; "compilation" : pystr].

Definition drop_various (artist_words : list pystr) : list pystr :=
  if existsb (Py.contains VARIOUS) artist_words then [] else artist_words.

(** The loop over [artist_words[:2]]. *)
Definition add_artist_word (max_words : Z) (combined_words : list pystr)
    (word : pystr) : list pystr :=
  if (Z.of_nat (length combined_words) <? max_words)%Z
  then combined_words ++ [word] else combined_words.

(** The loop over [title_words], which leaves at the first [break]. *)
Fixpoint add_title_words (max_words : Z) (title_words : list pystr)
    (combined_words : list pystr) : list pystr :=
  match title_words with
  | [] => combined_words
  | word :: rest =>
      if (Z.of_nat (length combined_words) >=? max_words)%Z then
        combined_words
      else if negb (Py.contains combined_words word) then
        add_title_words max_words rest (combined_words ++ [word])
      else
        add_title_words max_words rest combined_words
  end.

(** The two token lists after the "Various Artists" case. *)
Definition artist_words_of (cfg : Config) (artist : value) : list pystr :=
  drop_various (field_words cfg (clean_text artist)).

Definition title_words_of (cfg : Config) (title : value) : list pystr :=
  field_words cfg (clean_text title).

Definition combine_words (max_words : Z) (artist_words title_words : list pystr)
  : list pystr :=
  let combined_words :=
    fold_left (add_artist_word max_words) (take 2 artist_words) [] in
  add_title_words max_words title_words combined_words.

(** [CollectionProcessor.generate_keywords] *)
Definition generate_keywords (cfg : Config) (artist title : value)
    (max_words : option Z) : pystr :=
  let max_words := or_max_keywords max_words cfg in
  let artist_words := artist_words_of cfg artist in
  let title_words := title_words_of cfg title in
  Py.join " " (combine_words max_words artist_words title_words).

(** ** Exceptions, the logger and the data frame *)

(** [FormatError] stands for what [str.format] raises on a template
    outside the fragment of [Lib.format_from].  [BeyondAlphabet] is no
    exception of the program: it ends a run that would write a label
    with a character beyond U+00FF. *)
Inductive exn : Type :=
  | ValueError (msg : pystr)
  | KeyError (key : pystr)
  | TypeError
  | IndexError
  | FormatError
  | BeyondAlphabet.

Inductive level : Type := INFO | WARNING.

(** A data frame: its columns in order, each with its label and its
    cells.  All columns have as many cells as the frame has rows, and
    labels are distinct, as [read_csv] delivers them. *)
Abbreviation DataFrame := (list (pystr * list value)).

(** What a call can change: the frame, which is updated in place, and
    the records sent to the logger. *)
Record world : Type := { frame : DataFrame; logged : list (level * pystr) }.

Inductive outcome (A : Type) : Type :=
  | Return (a : A)
  | Raise (e : exn).
Arguments Return {A} a.
Arguments Raise {A} e.

Definition M (A : Type) : Type := world -> outcome A * world.

Global Instance M_ret : MRet M := fun A (a : A) w => (Return a, w).

Global Instance M_bind : MBind M := fun A B (k : A -> M B) (m : M A) w =>
  match m w with
  | (Return a, w') => k a w'
  | (Raise e, w') => (Raise e, w')
  end.

Definition raise {A} (e : exn) : M A := fun w => (Raise e, w).

Definition get_frame : M DataFrame := fun w => (Return (frame w), w).

Definition put_frame (df : DataFrame) : M unit :=
  fun w => (Return tt, {| frame := df; logged := logged w |}).

Definition log (lv : level) (msg : pystr) : M unit :=
  fun w => (Return tt, {| frame := frame w; logged := logged w ++ [(lv, msg)] |}).

(** [for x in xs: body(x)] and [[f(x) for x in xs]] with effects. *)
Fixpoint for_each {A} (body : A -> M unit) (xs : list A) : M unit :=
  match xs with
  | [] => mret tt
  | x :: rest => body x;; for_each body rest
  end.

Fixpoint map_each {A B} (f : A -> M B) (xs : list A) : M (list B) :=
  match xs with
  | [] => mret []
  | x :: rest => y ← f x; ys ← map_each f rest; mret (y :: ys)
  end.

(** [df.columns] *)
Definition df_columns (df : DataFrame) : list pystr := df.*1.

(** [len(df)] *)
Definition df_len (df : DataFrame) : nat :=
  match df with
  | [] => 0
  | (_, cells) :: _ => length cells
  end.

(** [df[col]] for a label that [df] has at most once, [None] when [col]
    is not a label of [df].  For a label that occurs more than once
    pandas selects a frame, not a column, and the program fails on it;
    the function then gives the first of these columns, which is not
    what the program computes, so every statement about a run that
    reads a column assumes that the labels are distinct. *)
Fixpoint df_lookup (df : DataFrame) (col : pystr) : option (list value) :=
  match df with
  | [] => None
  | (c, cells) :: rest => if decide (c = col) then Some cells else df_lookup rest col
  end.

(** [df[col] = cells]: an existing column is replaced where it stands, a
    new one is appended. *)
Fixpoint df_assign (df : DataFrame) (col : pystr) (cells : list value) : DataFrame :=
  match df with
  | [] => [(col, cells)]
  | (c, old) :: rest =>
      if decide (c = col) then (c, cells) :: rest
      else (c, old) :: df_assign rest col cells
  end.

Definition get_column (col : pystr) : M (list value) :=
  df ← get_frame;
  match df_lookup df col with
  | Some cells => mret cells
  | None => raise (KeyError col)
  end.

Definition set_column (col : pystr) (cells : list value) : M unit :=
  df ← get_frame; put_frame (df_assign df col cells).

(** ** Library functions used by the link builder and the messages *)
Module Lib.

Definition starts_with (p s : pystr) : bool :=
  bool_decide (take (length p) s = p).

(** [template.format(query=query)] for templates made of literal
    text, the escapes [{{] and [}}], and the field [{query}], as all
    templates of the default configuration are.  [None] stands for the
    exception that [format] raises on a lone brace or on another field
    name; fields with a conversion or a format specification are not
    covered and yield [None] as well.  [skip] counts the characters
    of the current escape or field that remain to be passed over. *)
Fixpoint format_from (skip : nat) (query : pystr) (s : pystr) : option pystr :=
  match s with
  | [] => Some []
  | c :: r =>
      match skip with
      | S k => format_from k query r
      | O =>
          if decide (c = "{"%char) then
            if starts_with "{" r then
              (fun t => "{"%char :: t) <$> format_from 1 query r
            else if starts_with "query}" r then
              (fun t => query ++ t) <$> format_from 6 query r
            else None
          else if decide (c = "}"%char) then
            if starts_with "}" r then
              (fun t => "}"%char :: t) <$> format_from 1 query r
            else None
          else (fun t => c :: t) <$> format_from 0 query r
      end
  end.

Definition format (template query : pystr) : option pystr :=
  format_from 0 query template.

Definition hex_digit (digits : pystr) (n : N) : ascii :=
  nth (N.to_nat n) digits "0"%char.

Definition hex2 (digits : pystr) (n : N) : pystr :=
  [hex_digit digits (n / 16); hex_digit digits (n mod 16)].

(** The UTF-8 encoding of a code point below U+0100. *)
Definition utf8 (c : ascii) : list N :=
  let n := Py.code c in
  if (n <? 128)%N then [n] else [192 + n / 64; 128 + n mod 64]%N.

(** [urllib.parse.quote_plus]: letters, digits and [_.-~] stay, a
    space becomes [+], every other character becomes the [%XX] escapes
    of its UTF-8 bytes. *)
Definition is_safe (c : ascii) : bool :=
  Py.in_range 48 57 c || Py.in_range 65 90 c || Py.in_range 97 122 c
  || bool_decide (c ∈ list_ascii_of_string "_.-~").

Definition quote_char (c : ascii) : pystr :=
  if is_safe c then [c]
  else if decide (c = " "%char) then ["+"%char]
  else flat_map (fun b => "%"%char :: hex2 "0123456789ABCDEF" b) (utf8 c).

Definition quote_plus (s : pystr) : pystr := flat_map quote_char s.

(** [repr] of a string and of a list of strings. *)
Definition squote : ascii := "'"%char.
Definition dquote : ascii := ascii_of_N 34.
Definition backslash : ascii := ascii_of_N 92.

Definition isprintable (c : ascii) : bool :=
  Py.in_range 32 126 c
  || (Py.in_range 161 255 c && negb (Py.in_range 173 173 c)).

Definition repr_char (quote c : ascii) : pystr :=
  if bool_decide (c = quote) || bool_decide (c = backslash) then [backslash; c]
  else if Py.in_range 9 9 c then [backslash; "t"%char]
  else if Py.in_range 10 10 c then [backslash; "n"%char]
  else if Py.in_range 13 13 c then [backslash; "r"%char]
  else if isprintable c then [c]
  else backslash :: "x"%char :: hex2 "0123456789abcdef" (Py.code c).

Definition repr_str (s : pystr) : pystr :=
  let quote :=
    if bool_decide (squote ∈ s) && negb (bool_decide (dquote ∈ s))
    then dquote else squote in
  quote :: flat_map (repr_char quote) s ++ [quote].

Definition repr_list (l : list pystr) : pystr :=
  "[" ++ Py.join ", " (map repr_str l) ++ "]".

End Lib.

(** ** Column detection *)

(** One loop of [detect_columns]: the first candidate that is a column
    label ends the loop. *)
Fixpoint first_column (columns candidates : list pystr) : option pystr :=
  match candidates with
  | [] => None
  | col_name :: rest =>
      if Py.contains columns col_name then Some col_name
      else first_column columns rest
  end.

(** [CollectionProcessor.detect_columns] *)
Definition detect_columns (cfg : Config) (df : DataFrame)
  : option pystr * option pystr :=
  let artist_col := first_column (df_columns df) (artist_columns cfg) in
  let title_col := first_column (df_columns df) (title_columns cfg) in
  (artist_col, title_col).

(** ** Link builder *)

(** [url_template.format(query=query)] as a step that may raise. *)
Definition format_url (url_template query : pystr) : M pystr :=
  match Lib.format url_template query with
  | Some url => mret url
  | None => raise FormatError
  end.

(** [if not search_engines: search_engines = [default]] *)
Definition engines_or_default (cfg : Config) (search_engines : option (list pystr))
  : list pystr :=
  match search_engines with
  | Some (e :: l) => e :: l
  | _ => [default_search_engine cfg]
  end.

(** The loop of [generate_search_links] over the engines, with the
    dictionary [links] built so far. *)
Fixpoint add_links (cfg : Config) (query : pystr) (engines : list pystr)
    (links : gmap pystr pystr) : M (gmap pystr pystr) :=
  match engines with
  | [] => mret links
  | engine :: rest =>
      match search_engines cfg !! engine with
      | Some url_template =>
          url ← format_url url_template query;
          add_links cfg query rest (<[engine := url]> links)
      | None =>
          log WARNING ("Unknown search engine: " ++ engine);;
          add_links cfg query rest links
      end
  end.

(** [CollectionProcessor.generate_search_links] *)
Definition generate_search_links (cfg : Config) (keywords : pystr)
    (search_engines : option (list pystr)) : M (gmap pystr pystr) :=
  let search_engines := engines_or_default cfg search_engines in
  let links : gmap pystr pystr := ∅ in
  let query := Lib.quote_plus keywords in
  add_links cfg query search_engines links.

(** ** Record pipeline *)

(** Truth value of an optional column name: [None] and [''] are
    falsy. *)
Definition truthy (col : option pystr) : bool :=
  match col with
  | Some (_ :: _) => true
  | _ => false
  end.

(** [col or detected] *)
Definition col_or (col detected : option pystr) : option pystr :=
  if truthy col then col else detected.

(** The columns that [process_dataframe] settles on before it checks
    them. *)
Definition resolve_columns (cfg : Config) (df : DataFrame)
    (artist_col title_col : option pystr) : option pystr * option pystr :=
  if negb (truthy artist_col) || negb (truthy title_col) then
    let '(detected_artist, detected_title) := detect_columns cfg df in
    (col_or artist_col detected_artist, col_or title_col detected_title)
  else (artist_col, title_col).

(** The function applied to each cell of [df['Keywords']] for one
    engine. *)
Definition link_cell (cfg : Config) (engine : pystr) (kw : value) : M value :=
  match kw with
  | VStr kw =>
      links ← generate_search_links cfg kw (Some [engine]);
      mret (VStr (default [] (links !! engine)))
  | _ => raise TypeError
  end.

(** The body of the loop over the requested engines. *)
Definition add_link_column (cfg : Config) (engine : pystr) : M unit :=
  keywords ← get_column "Keywords";
  cells ← map_each (link_cell cfg engine) keywords;
  match Py.title engine with
  | Some titled => set_column (titled ++ "_Link") cells
  | None => raise BeyondAlphabet
  end.

(** [CollectionProcessor.process_dataframe].  The frame is updated in
    place and returned.  [apply] is taken row by row, so a frame
    without rows gets empty columns. *)
Definition process_dataframe (cfg : Config) (artist_col title_col : option pystr)
    (search_engines : option (list pystr)) : M DataFrame :=
  df ← get_frame;
  let '(artist_col, title_col) := resolve_columns cfg df artist_col title_col in
  if negb (truthy artist_col) || negb (truthy title_col) then
    raise (ValueError ("Could not find artist/title columns. Available columns: "
                         ++ Lib.repr_list (df_columns df)))
  else
    let artist_col := default [] artist_col in
    let title_col := default [] title_col in
    if negb (Py.contains (df_columns df) artist_col) then
      raise (ValueError ("Artist column '" ++ artist_col ++ "' not found in data"))
    else if negb (Py.contains (df_columns df) title_col) then
      raise (ValueError ("Title column '" ++ title_col ++ "' not found in data"))
    else
      log INFO ("Processing " ++ pretty (df_len df) ++ " records...");;
      log INFO ("Using columns: Artist='" ++ artist_col ++ "', Title='"
                  ++ title_col ++ "'");;
      log INFO "Generating keywords...";;
      artists ← get_column artist_col;
      titles ← get_column title_col;
      set_column "Keywords"
        (zip_with (fun artist title => VStr (generate_keywords cfg artist title None))
           artists titles);;
      let search_engines := engines_or_default cfg search_engines in
      log INFO ("Generating search links for: " ++ Py.join ", " search_engines);;
      for_each (add_link_column cfg) search_engines;;
      match search_engines with
      | [] => raise IndexError
      | primary_engine :: _ =>
          match Py.title primary_engine with
          | Some titled =>
              cells ← get_column (titled ++ "_Link");
              set_column "Search_Link" cells;;
              get_frame
          | None => raise BeyondAlphabet
          end
      end.

(** ** Notions used by the specification *)
Module Spec.

(** The tokens of [l] in the order in which they are first seen:
    every later repetition is dropped. *)
Fixpoint first_seen (l : list pystr) : list pystr :=
  match l with
  | [] => []
  | x :: r => x :: filter (fun y => y ≠ x) (first_seen r)
  end.

(** Composition of the keyword list as the specification words it:
    up to the first two artist tokens while the count is below
    [max_words] ... *)
Definition artist_part (max_words : nat) (artist_tokens : list pystr)
  : list pystr :=
  take (min 2 max_words) artist_tokens.

(** ... then the remaining [slots] are filled with title tokens in
    order, a token already in the combined list being skipped. *)
Fixpoint fill (title_tokens : list pystr) (slots : nat) (combined : list pystr)
  : list pystr :=
  match title_tokens, slots with
  | [], _ => combined
  | _, O => combined
  | t :: rest, S k =>
      if bool_decide (t ∈ combined) then fill rest slots combined
      else fill rest k (combined ++ [t])
  end.

Definition compose (max_words : nat) (artist_tokens title_tokens : list pystr)
  : list pystr :=
  let combined := artist_part max_words artist_tokens in
  fill title_tokens (max_words - length combined) combined.

(** [r] is the first name of [candidates], in list order, that is in
    [schema]; [None] when no candidate is. *)
Definition first_present (schema candidates : list pystr) (r : option pystr)
  : Prop :=
  match r with
  | Some c =>
      ∃ before after, candidates = before ++ c :: after
                      ∧ c ∈ schema ∧ Forall (fun x => x ∉ schema) before
  | None => Forall (fun x => x ∉ schema) candidates
  end.

(** [x] occurs in [msg] as a piece of consecutive text. *)
Definition occurs_in (x msg : pystr) : Prop :=
  ∃ before after, msg = before ++ x ++ after.

(** The message shows the column labels of [df], as Python prints
    the list of them. *)
Definition reports_schema (msg : pystr) (df : DataFrame) : Prop :=
  occurs_in (Lib.repr_list (df_columns df)) msg.

(** A role is unresolved when no column is given for it and none is
    detected. *)
Definition unresolved (explicit detected : option pystr) : Prop :=
  truthy explicit = false ∧ truthy detected = false.

(** A column is given by the caller and is not a label of [df]. *)
Definition absent (explicit : option pystr) (df : DataFrame) : Prop :=
  ∃ c, explicit = Some c ∧ c ≠ [] ∧ c ∉ df_columns df.

(** The keys of [links] are the requested engines that the registry
    knows. *)
Definition keys_are_known_requested (cfg : Config) (engines : list pystr)
    (links : gmap pystr pystr) : Prop :=
  ∀ e, e ∈ dom links ↔ e ∈ engines ∧ e ∈ dom (search_engines cfg).

(** Every template of the registry can be formatted. *)
Definition templates_ok (cfg : Config) : Prop :=
  map_Forall (fun _ template => is_Some (Lib.format template []))
    (search_engines cfg).

(** One warning for each requested engine that the registry lacks, in
    the order of the requests. *)
Definition unknown_warnings (cfg : Config) (engines : list pystr)
  : list (level * pystr) :=
  map (fun e => (WARNING, "Unknown search engine: " ++ e))
    (filter (fun e => search_engines cfg !! e = None) engines).

(** The label of the link field of an engine, [None] when the
    title-cased identifier has a character beyond U+00FF. *)
Definition link_field (engine : pystr) : option pystr :=
  (fun titled => titled ++ "_Link") <$> Py.title engine.

(** The labels of the link fields of all [engines] can be written. *)
Definition titles_ok (engines : list pystr) : Prop :=
  Forall (fun e => is_Some (link_field e)) engines.

(** All cells of the field [col] of [df] hold the empty string. *)
Definition field_is_empty (df : DataFrame) (col : pystr) : Prop :=
  ∃ cells, df_lookup df col = Some cells ∧ Forall (fun v => v = VStr []) cells.

(** The two roles resolve to the labels [a] and [t] of [df]. *)
Definition resolved (cfg : Config) (df : DataFrame)
    (artist_col title_col : option pystr) (a t : pystr) : Prop :=
  resolve_columns cfg df artist_col title_col = (Some a, Some t)
  ∧ a ≠ [] ∧ t ≠ [] ∧ a ∈ df_columns df ∧ t ∈ df_columns df.

(** No requested engine of the registry writes to the field [col]. *)
Definition only_unknown_write (cfg : Config) (engines : list pystr)
    (col : pystr) : Prop :=
  ∀ e, e ∈ engines → link_field e = Some col → search_engines cfg !! e = None.

End Spec.

(** ** What the pipeline writes, without the effects *)

(** The link that [link_cell] computes for one keywords string. *)
Definition link_text (cfg : Config) (engine kw : pystr) : pystr :=
  match search_engines cfg !! engine with
  | Some template => default [] (Lib.format template (Lib.quote_plus kw))
  | None => []
  end.

Definition link_cells (cfg : Config) (engine : pystr) (kws : list pystr)
  : list value :=
  map (fun kw => VStr (link_text cfg engine kw)) kws.

(** The label that the loop writes for an engine whose link field has
    one. *)
Definition link_label (engine : pystr) : pystr :=
  default [] (Py.title engine) ++ "_Link".

(** The frame after the loop over the engines. *)
Definition write_links (cfg : Config) (kws : list pystr) (df : DataFrame)
    (engines : list pystr) : DataFrame :=
  fold_left
    (fun df e => df_assign df (link_label e) (link_cells cfg e kws))
    engines df.

(** The keywords of the rows. *)
Definition keyword_texts (cfg : Config) (artists titles : list value)
  : list pystr :=
  zip_with (fun artist title => generate_keywords cfg artist title None)
    artists titles.

(** ** Shape of cleaned text *)

(** A character that [clean_text] can leave in its result: unchanged by
    [lower], outside the class that becomes a space, and, when it is
    whitespace, the space itself. *)
Definition clean_char (c : ascii) : bool :=
  bool_decide (Py.lower_char c = c) && Re.is_kept c
  && (negb (Py.isspace c) || bool_decide (c = " "%char)).

(** No whitespace character follows another one; [after_space] tells
    whether a whitespace character precedes the text. *)
Fixpoint single_spaced (after_space : bool) (s : pystr) : bool :=
  match s with
  | [] => true
  | c :: r =>
      if Py.isspace c then negb after_space && single_spaced true r
      else single_spaced false r
  end.

(** A token as [split] delivers it: not empty and free of whitespace. *)
Definition is_token (w : pystr) : Prop :=
  w ≠ [] ∧ Forall (fun c => Py.isspace c = false) w.

(** ** The HTML report *)

(** The exceptions that the report functions raise themselves. *)
Inductive report_exn : Type :=
  | ZeroDivisionError
  | NameError (name : pystr).

(** What the report takes from outside the program: the text with which
    a page opens, which holds the time of the call and characters
    beyond U+00FF (given the page number, the number of pages and the
    number of rows), and the printed form of [output_dir / filename]. *)
Record Env : Type := {
  page_head : Z -> Z -> nat -> pystr;
  path_str : pystr -> pystr -> pystr
}.

(** The directories made, the files written (directory, name, text) and
    the records logged by [generate_html_report]. *)
Record report_world : Type := {
  made_dirs : list pystr;
  written : list (pystr * pystr * pystr);
  report_log : list (level * pystr)
}.

(** The literal text of the page. *)
Module Html.

Definition NL : pystr := [ascii_of_N 10].

(** [name="value"] *)
Definition attr (name value : pystr) : pystr :=
  name ++ "=" ++ [Lib.dquote] ++ value ++ [Lib.dquote].

Definition nav_open : pystr :=
  NL ++ "        <div " ++ attr "class" "pagination" ++ ">" ++ NL
  ++ "            Navigation: " ++ NL.

Definition nav_current (p : Z) : pystr :=
  "<strong>" ++ pretty p ++ "</strong> ".

Definition nav_close : pystr := "</div>".

Definition grid_open : pystr := "<div " ++ attr "class" "album-grid" ++ ">".

Definition card_open (artist title keywords : pystr) : pystr :=
  NL ++ "        <div " ++ attr "class" "album-card" ++ ">" ++ NL
  ++ "            <div " ++ attr "class" "artist" ++ ">" ++ artist ++ "</div>" ++ NL
  ++ "            <div " ++ attr "class" "title" ++ ">" ++ title ++ "</div>" ++ NL
  ++ "            <div " ++ attr "class" "keywords" ++ ">Keywords: " ++ keywords
  ++ "</div>" ++ NL
  ++ "            <div " ++ attr "class" "links" ++ ">" ++ NL.

Definition link_button (href engine_name : pystr) : pystr :=
  "<a " ++ attr "href" href ++ " " ++ attr "target" "_blank" ++ " "
  ++ attr "class" "link-btn" ++ ">" ++ engine_name ++ "</a>".

Definition card_close : pystr :=
  NL ++ "            </div>" ++ NL ++ "        </div>" ++ NL.

Definition page_close : pystr :=
  NL ++ "        </div>" ++ NL ++ "    </div>" ++ NL ++ "</body>" ++ NL
  ++ "</html>" ++ NL.

End Html.

(** [s.endswith(suffix)] *)
Definition endswith (s suffix : pystr) : bool :=
  bool_decide (suffix `suffix_of` s).

(** [s.replace(old, new)] for a non-empty [old]: the occurrences of
    [old] are replaced from the left, without overlap.  [skip] counts
    the characters of the current occurrence still to pass over. *)
Fixpoint replace_from (skip : nat) (old new s : pystr) : pystr :=
  match s with
  | [] => []
  | c :: r =>
      match skip with
      | S k => replace_from k old new r
      | O =>
          if Lib.starts_with old s
          then new ++ replace_from (length old - 1) old new r
          else c :: replace_from 0 old new r
      end
  end.

Definition replace (s old new : pystr) : pystr := replace_from 0 old new s.

(** [l[start:stop]] *)
Definition py_slice {A} (start stop : Z) (l : list A) : list A :=
  let n := Z.of_nat (length l) in
  let clamp i := if (i <? 0)%Z then Z.max (i + n) 0 else Z.min i n in
  take (Z.to_nat (clamp stop - clamp start)) (drop (Z.to_nat (clamp start)) l).

(** [df.iloc[start:stop]] *)
Definition df_iloc (df : DataFrame) (start stop : Z) : DataFrame :=
  map (fun '(c, cells) => (c, py_slice start stop cells)) df.

(** The rows that [df.iterrows()] yields: each is the series of the
    cells of one row, labelled by the columns. *)
Definition df_rows (df : DataFrame) : list (list (pystr * value)) :=
  map (fun i => map (fun '(c, cells) => (c, default VNaN (cells !! i))) df)
    (seq 0 (df_len df)).

(** [row.get(col, default)], and [row[col]] for a label of the row, when
    the row has the label [col] at most once.  For a label that occurs
    more than once pandas selects a series, not a cell, and the test of
    a link cell fails on it; statements about pages that are rendered
    assume that the labels are distinct. *)
Fixpoint row_get (row : list (pystr * value)) (col : pystr) (dflt : value)
  : value :=
  match row with
  | [] => dflt
  | (c, v) :: rest => if decide (c = col) then v else row_get rest col dflt
  end.

(** [pd.notna(v) and v] as a condition. *)
Definition is_link (v : value) : bool := negb (is_blank v).

(** The loop over the page numbers in the navigation.  The branch for
    another page evaluates [Path(output_path)], and [output_path] is
    neither a local nor a global name of [generate_page_html]. *)
Fixpoint add_navigation (page_num : Z) (ps : list Z) (html : pystr)
  : report_exn + pystr :=
  match ps with
  | [] => inr html
  | p :: rest =>
      if (p =? page_num)%Z then
        add_navigation page_num rest (html ++ Html.nav_current p)
      else inl (NameError "output_path")
  end.

(** The loop over [link_columns] for one row. *)
Definition add_link_button (row : list (pystr * value)) (html : pystr)
    (link_col : pystr) : pystr :=
  if is_link (row_get row link_col VNaN) then
    let engine_name := replace link_col "_Link" "" in
    html ++ Html.link_button (to_str (row_get row link_col VNaN)) engine_name
  else html.

(** The body of the loop over the rows. *)
Definition add_card (artist_col title_col : option pystr)
    (columns : list pystr) (html : pystr) (row : list (pystr * value))
  : pystr :=
  let artist :=
    if truthy artist_col
    then row_get row (default [] artist_col) (VStr "Unknown Artist")
    else VStr "Unknown Artist" in
  let title :=
    if truthy title_col
    then row_get row (default [] title_col) (VStr "Unknown Title")
    else VStr "Unknown Title" in
  let keywords := row_get row "Keywords" (VStr "") in
  let html :=
    html ++ Html.card_open (to_str artist) (to_str title) (to_str keywords) in
  let link_columns := filter (fun col => endswith col "_Link" = true) columns in
  let html := fold_left (add_link_button row) link_columns html in
  html ++ Html.card_close.

(** [generate_page_html] *)
Definition generate_page_html (env : Env) (df : DataFrame)
    (page_num total_pages : Z) (config : Config) : report_exn + pystr :=
  let artist_col := first_column (df_columns df) (artist_columns config) in
  let title_col := first_column (df_columns df) (title_columns config) in
  let html := page_head env page_num total_pages (df_len df) in
  let navigated :=
    if (1 <? total_pages)%Z then
      match add_navigation page_num (seqZ 1 total_pages)
              (html ++ Html.nav_open) with
      | inr html => inr (html ++ Html.nav_close)
      | inl e => inl e
      end
    else inr html in
  match navigated with
  | inl e => inl e
  | inr html =>
      let html := html ++ Html.grid_open in
      let html :=
        fold_left (add_card artist_col title_col (df_columns df))
          (df_rows df) html in
      inr (html ++ Html.page_close)
  end.

(** The slice of rows of one page. *)
Definition page_bounds (items_per_page total_items page : Z) : Z * Z :=
  let start_idx := (page * items_per_page)%Z in
  let end_idx := Z.min (start_idx + items_per_page) total_items in
  (start_idx, end_idx).

(** The loop of [generate_html_report] over the pages. *)
Fixpoint write_pages (env : Env) (config : Config) (df : DataFrame)
    (output_dir base_name : pystr) (items_per_page total_items total_pages : Z)
    (pages : list Z) (fs : report_world) : option report_exn * report_world :=
  match pages with
  | [] => (None, fs)
  | page :: rest =>
      let '(start_idx, end_idx) := page_bounds items_per_page total_items page in
      let page_df := df_iloc df start_idx end_idx in
      let filename :=
        if (total_pages =? 1)%Z then base_name ++ ".html"
        else base_name ++ "_page_" ++ pretty (page + 1)%Z ++ ".html" in
      match generate_page_html env page_df (page + 1) total_pages config with
      | inl e => (Some e, fs)
      | inr html_content =>
          write_pages env config df output_dir base_name items_per_page
            total_items total_pages rest
            {| made_dirs := made_dirs fs;
               written := written fs ++ [(output_dir, filename, html_content)];
               report_log :=
                 report_log fs
                 ++ [(INFO, "Generated HTML page: "
                              ++ path_str env output_dir filename)] |}
      end
  end.

(** [generate_html_report], for the parent [output_dir] and the stem
    [base_name] of [output_path].  The result is the exception raised,
    if any. *)
Definition generate_html_report (env : Env) (df : DataFrame)
    (output_dir base_name : pystr) (items_per_page : Z)
    (config : option Config) (fs : report_world)
  : option report_exn * report_world :=
  let config := default DEFAULT_CONFIG config in
  let total_items := Z.of_nat (df_len df) in
  if (items_per_page =? 0)%Z then (Some ZeroDivisionError, fs)
  else
    let total_pages := ((total_items + items_per_page - 1) / items_per_page)%Z in
    let fs :=
      {| made_dirs := made_dirs fs ++ [output_dir];
         written := written fs;
         report_log := report_log fs |} in
    write_pages env config df output_dir base_name items_per_page total_items
      total_pages (seqZ 0 total_pages) fs.

(** A frame all of whose columns have as many cells as the frame has
    rows. *)
Definition rectangular (df : DataFrame) : Prop :=
  Forall (fun col => length col.2 = df_len df) df.

(** A frame as [read_csv] and [process_dataframe] deliver it: the
    labels are distinct, all columns are as long as the frame, and a
    cell is a string or [NaN], never [None]. *)
Definition well_formed (df : DataFrame) : Prop :=
  NoDup (df_columns df)
  ∧ rectangular df
  ∧ Forall (fun col => Forall (fun v => v ≠ VNone) col.2) df.

(** Sample surroundings for the report. *)
Definition sample_env : Env :=
  {| page_head := fun page_num total_pages n => "<html>";
     path_str := fun dir name => dir ++ "/" ++ name |}.

Definition empty_disk : report_world :=
  {| made_dirs := []; written := []; report_log := [] |}.

Definition three_rows : DataFrame :=
  [("Artist" : pystr, [VStr "Queen"; VStr "Nirvana"; VStr "Prince"]);
   ("Title" : pystr, [VStr "Jazz"; VStr "Nevermind"; VStr "Purple Rain"])].

(** The label [c] is none of the fields that [process_dataframe] writes
    for the requested [engines]. *)
Definition not_written (engines : list pystr) (c : pystr) : Prop :=
  c ≠ "Keywords" ∧ c ≠ "Search_Link"
  ∧ ∀ e, e ∈ engines → Spec.link_field e ≠ Some c.

(** A character of the ASCII range. *)
Definition is_ascii (c : ascii) : bool := Py.in_range 0 127 c.

(** * Properties *)

(** ** Sample data *)

Definition two_records : DataFrame :=
  [("Artist" : pystr, [VStr "Queen"; VStr "Nirvana"]);
   ("Title" : pystr, [VStr "A Night at the Opera"; VStr "Nevermind"])].

Definition fresh (df : DataFrame) : world := {| frame := df; logged := [] |}.

Example clean_text_remaster :
  clean_text (VStr "The Dark Side (Remastered) of the  Moon!")
  = "the dark side of the moon".
Proof. reflexivity. Qed.

Example sub_brackets_mixed :
  Re.sub_brackets "a(b)c(d]e((f)g)" = "aceg)".
Proof. reflexivity. Qed.

Example generate_keywords_beatles :
  generate_keywords DEFAULT_CONFIG (VStr "The Beatles") (VStr "Abbey Road") (Some 5%Z)
  = "beatles abbey road".
Proof. vm_compute. reflexivity. Qed.

Example quote_plus_reserved : Lib.quote_plus "a b/~%+" = "a+b%2F~%25%2B".
Proof. reflexivity. Qed.

Example title_words :
  Py.title "my_engine abc1def WIKI" = Some ("My_Engine Abc1Def Wiki" : pystr).
Proof. reflexivity. Qed.

Example title_sharp_s :
  Py.title [ascii_of_N 223; "a"%char; ascii_of_N 223]
  = Some ["S"; "s"; "a"; ascii_of_N 223]%char
  ∧ Py.title [ascii_of_N 255] = None.
Proof. split; reflexivity. Qed.

(** ** Characters *)

Ltac each_char c :=
  destruct c as [[] [] [] [] [] [] [] []]; vm_compute; try reflexivity; try discriminate.

Lemma lower_char_idem c : Py.lower_char (Py.lower_char c) = Py.lower_char c.
Proof. each_char c. Qed.

Lemma isspace_kept c : Py.isspace c = true → Re.is_kept c = true.
Proof. each_char c. Qed.

Lemma kept_not_open c : Re.is_kept c = true → Re.is_open c = false.
Proof. each_char c. Qed.

Lemma space_is_space : Py.isspace " "%char = true.
Proof. reflexivity. Qed.

Lemma clean_char_space : clean_char " "%char = true.
Proof. reflexivity. Qed.

Lemma clean_char_lower c : clean_char c = true → Py.lower_char c = c.
Proof.
  unfold clean_char. rewrite !andb_true_iff.
  intros [[H _] _]. by apply bool_decide_eq_true in H.
Qed.

Lemma clean_char_kept c : clean_char c = true → Re.is_kept c = true.
Proof. unfold clean_char. rewrite !andb_true_iff. tauto. Qed.

Lemma clean_char_isspace c :
  clean_char c = true → Py.isspace c = true → c = " "%char.
Proof.
  unfold clean_char. rewrite !andb_true_iff, orb_true_iff.
  intros [_ [H|H]] Hs.
  - rewrite Hs in H. discriminate.
  - by apply bool_decide_eq_true in H.
Qed.

Lemma clean_char_intro c :
  Py.lower_char c = c → Re.is_kept c = true → Py.isspace c = false →
  clean_char c = true.
Proof.
  intros Hl Hk Hs. unfold clean_char.
  rewrite Hk, Hs, bool_decide_eq_true_2; done.
Qed.

(** ** The steps of [clean_text], one by one *)

Lemma lower_fixed s : Forall (fun c => Py.lower_char c = c) (Py.lower s).
Proof.
  unfold Py.lower. induction s as [|c r IH]; simpl; constructor; auto.
  apply lower_char_idem.
Qed.

Lemma sub_brackets_Forall (P : ascii → Prop) inside s :
  Forall P s → Forall P (Re.sub_brackets_from inside s).
Proof.
  intros H. revert inside.
  induction H as [|c r Hc Hr IH]; intros inside; simpl; [constructor|].
  destruct inside; [apply IH|].
  destruct (Re.is_open c && Re.closes r); [apply IH|].
  constructor; auto.
Qed.

Lemma spaces_special_clean in_run s :
  Forall (fun c => Py.lower_char c = c) s →
  Forall (fun c => clean_char c = true)
    (Re.sub_spaces_from in_run (Re.sub_special s)).
Proof.
  intros H. revert in_run.
  induction H as [|c r Hc Hr IH]; intros in_run; simpl; [constructor|].
  destruct (Re.is_kept c) eqn:Hk.
  - destruct (Py.isspace c) eqn:Hs.
    + destruct in_run; [apply IH|].
      constructor; [apply clean_char_space | apply IH].
    + constructor; [by apply clean_char_intro | apply IH].
  - rewrite space_is_space.
    destruct in_run; [apply IH|].
    constructor; [apply clean_char_space | apply IH].
Qed.

Lemma sub_spaces_single in_run s :
  single_spaced in_run (Re.sub_spaces_from in_run s) = true.
Proof.
  revert in_run. induction s as [|c r IH]; intros in_run; simpl; [done|].
  destruct (Py.isspace c) eqn:Hs.
  - destruct in_run; [apply IH|].
    change (single_spaced true (Re.sub_spaces_from true r) = true). apply IH.
  - simpl. rewrite Hs. apply IH.
Qed.

(** On text of the cleaned shape every step is the identity. *)

Lemma lower_clean t :
  Forall (fun c => clean_char c = true) t → Py.lower t = t.
Proof.
  unfold Py.lower. induction 1 as [|c r Hc Hr IH]; simpl; [done|].
  by rewrite IH, clean_char_lower.
Qed.

Lemma sub_brackets_clean t :
  Forall (fun c => clean_char c = true) t → Re.sub_brackets t = t.
Proof.
  unfold Re.sub_brackets. induction 1 as [|c r Hc Hr IH]; simpl; [done|].
  rewrite (kept_not_open c) by by apply clean_char_kept.
  simpl. by rewrite IH.
Qed.

Lemma sub_special_clean t :
  Forall (fun c => clean_char c = true) t → Re.sub_special t = t.
Proof.
  unfold Re.sub_special. induction 1 as [|c r Hc Hr IH]; simpl; [done|].
  by rewrite IH, clean_char_kept.
Qed.

Lemma sub_spaces_clean in_run t :
  Forall (fun c => clean_char c = true) t →
  single_spaced in_run t = true →
  Re.sub_spaces_from in_run t = t.
Proof.
  intros H. revert in_run.
  induction H as [|c r Hc Hr IH]; intros in_run; simpl; [done|].
  destruct (Py.isspace c) eqn:Hs.
  - rewrite andb_true_iff. intros [Hn Hsp].
    destruct in_run; [discriminate|].
    rewrite (clean_char_isspace c Hc Hs). by rewrite IH.
  - intros Hsp. by rewrite IH.
Qed.

Lemma single_spaced_weaken b s :
  single_spaced b s = true → single_spaced false s = true.
Proof.
  destruct s as [|c r]; simpl; [done|].
  destruct (Py.isspace c); [|done].
  rewrite andb_true_iff. by intros [_ ->].
Qed.

Lemma single_spaced_app b s1 s2 :
  single_spaced b (s1 ++ s2) = true →
  single_spaced b s1 = true ∧ single_spaced false s2 = true.
Proof.
  revert b. induction s1 as [|c r IH]; intros b; simpl.
  - intros H. split; [done|]. by apply single_spaced_weaken in H.
  - destruct (Py.isspace c).
    + rewrite !andb_true_iff. intros [Hb H]. apply IH in H. tauto.
    + apply IH.
Qed.

(** ** [strip] *)

Lemma lstrip_suffix s : ∃ a, s = a ++ Py.lstrip s.
Proof.
  induction s as [|c r [a Ha]]; simpl.
  - by exists [].
  - destruct (Py.isspace c).
    + exists (c :: a). simpl. by rewrite <- Ha.
    + by exists [].
Qed.

Lemma lstrip_head s c r : Py.lstrip s = c :: r → Py.isspace c = false.
Proof.
  induction s as [|d s IH]; simpl; [done|].
  destruct (Py.isspace d) eqn:Hd; [done|].
  intros [= <- _]. done.
Qed.

Lemma lstrip_id s :
  (∀ c r, s = c :: r → Py.isspace c = false) → Py.lstrip s = s.
Proof.
  destruct s as [|c r]; simpl; [done|].
  intros H. by rewrite (H c r).
Qed.

Lemma rstrip_prefix s : ∃ b, s = Py.rstrip s ++ b.
Proof.
  unfold Py.rstrip. destruct (lstrip_suffix (rev s)) as [a Ha].
  exists (rev a). rewrite <- rev_app_distr, <- Ha. by rewrite rev_involutive.
Qed.

Lemma rstrip_last s r c : Py.rstrip s = r ++ [c] → Py.isspace c = false.
Proof.
  unfold Py.rstrip. intros H.
  apply (f_equal (@rev ascii)) in H.
  rewrite rev_involutive, rev_app_distr in H. simpl in H.
  by apply lstrip_head in H.
Qed.

Lemma rstrip_id s :
  (∀ r c, s = r ++ [c] → Py.isspace c = false) → Py.rstrip s = s.
Proof.
  intros H. unfold Py.rstrip. rewrite lstrip_id; [apply rev_involutive|].
  intros c r Hr. apply (H (rev r)).
  rewrite <- (rev_involutive s), Hr. done.
Qed.

Lemma strip_infix s : ∃ a b, s = a ++ Py.strip s ++ b.
Proof.
  unfold Py.strip.
  destruct (lstrip_suffix s) as [a Ha].
  destruct (rstrip_prefix (Py.lstrip s)) as [b Hb].
  exists a, b. by rewrite <- Hb.
Qed.

Lemma strip_strip s : Py.strip (Py.strip s) = Py.strip s.
Proof.
  unfold Py.strip at 1.
  assert (Hl : Py.lstrip (Py.strip s) = Py.strip s).
  { apply lstrip_id. intros c r Hc. unfold Py.strip in Hc.
    destruct (rstrip_prefix (Py.lstrip s)) as [b Hb].
    rewrite Hc in Hb. by apply lstrip_head in Hb. }
  rewrite Hl. apply rstrip_id. intros r c Hc.
  unfold Py.strip in Hc. by apply rstrip_last in Hc.
Qed.

(** The result of [clean_text] has the cleaned shape. *)
Lemma clean_text_shape v :
  Forall (fun c => clean_char c = true) (clean_text v)
  ∧ single_spaced false (clean_text v) = true
  ∧ Py.strip (clean_text v) = clean_text v.
Proof.
  unfold clean_text. destruct (is_blank v); [by repeat split|].
  set (u := Re.sub_spaces _).
  assert (Hu : Forall (fun c => clean_char c = true) u).
  { apply spaces_special_clean, sub_brackets_Forall, lower_fixed. }
  assert (Hs : single_spaced false u = true) by apply sub_spaces_single.
  destruct (strip_infix u) as (a & b & Hab).
  rewrite Hab in Hu, Hs.
  apply Forall_app in Hu as [_ Hu]. apply Forall_app in Hu as [Hu _].
  apply single_spaced_app in Hs as [_ Hs].
  apply single_spaced_app in Hs as [Hs _].
  split; [done|]. split; [done|]. apply strip_strip.
Qed.

(** C7.  [clean_text] is idempotent: cleaning a cleaned text returns it
    unchanged, for every input value (a string, a missing cell or
    [None]). *)
Theorem clean_text_idempotent (v : value) :
  clean_text (VStr (clean_text v)) = clean_text v.
Proof.
  destruct (clean_text_shape v) as (Hc & Hs & Hstrip).
  generalize dependent (clean_text v). intros t Hc Hs Hstrip.
  unfold clean_text. simpl.
  case_bool_decide as Ht; [done|].
  rewrite lower_clean, sub_brackets_clean, sub_special_clean by done.
  unfold Re.sub_spaces. rewrite sub_spaces_clean by done. done.
Qed.

(** ** [split] and [join] *)

Lemma push_word_tokens w ws :
  Forall (fun c => Py.isspace c = false) w → Forall is_token ws →
  Forall is_token (Py.push_word w ws).
Proof.
  intros Hw Hws. destruct w as [|c r]; simpl; [done|].
  constructor; [|done]. split; [done|done].
Qed.

Lemma split_go_tokens s :
  Forall (fun c => Py.isspace c = false) (Py.split_go s).1
  ∧ Forall is_token (Py.split_go s).2.
Proof.
  induction s as [|c r [IH1 IH2]]; simpl; [by split|].
  destruct (Py.split_go r) as [w ws]. simpl in *.
  destruct (Py.isspace c) eqn:Hc; simpl.
  - split; [constructor|]. by apply push_word_tokens.
  - split; [by constructor|done].
Qed.

Lemma split_tokens s : Forall is_token (Py.split s).
Proof.
  unfold Py.split. pose proof (split_go_tokens s) as [H1 H2].
  destruct (Py.split_go s) as [w ws]. by apply push_word_tokens.
Qed.

Lemma split_go_app w s :
  Forall (fun c => Py.isspace c = false) w →
  Py.split_go (w ++ s) = (w ++ (Py.split_go s).1, (Py.split_go s).2).
Proof.
  induction 1 as [|c r Hc Hr IH]; simpl.
  - by destruct (Py.split_go s).
  - rewrite IH, Hc. done.
Qed.

Lemma split_token w : is_token w → Py.split w = [w].
Proof.
  intros [Hne Hw]. unfold Py.split.
  rewrite <- (app_nil_r w) at 1. rewrite split_go_app by done.
  simpl. rewrite app_nil_r. by destruct w.
Qed.

Lemma split_join ws :
  Forall is_token ws → Py.split (Py.join " " ws) = ws.
Proof.
  induction 1 as [|w r Hw Hr IH]; [done|].
  destruct r as [|w2 r']; [by apply split_token|].
  change (Py.join " " (w :: w2 :: r'))
    with (w ++ " "%char :: Py.join " " (w2 :: r')).
  destruct Hw as [Hne Hw]. unfold Py.split.
  rewrite split_go_app by done.
  change (Py.split_go (" "%char :: Py.join " " (w2 :: r')))
    with (let '(w, ws) := Py.split_go (Py.join " " (w2 :: r')) in
          (@nil ascii, Py.push_word w ws)).
  unfold Py.split in IH.
  destruct (Py.split_go (Py.join " " (w2 :: r'))) as [u us].
  simpl. rewrite app_nil_r, IH. by destruct w.
Qed.

(** ** The token list of one field *)

Lemma first_seen_subset l x : x ∈ Spec.first_seen l → x ∈ l.
Proof.
  induction l as [|y r IH]; simpl; [done|].
  rewrite !elem_of_cons, list_elem_of_filter. naive_solver.
Qed.

Lemma first_seen_NoDup l : NoDup (Spec.first_seen l).
Proof.
  induction l as [|y r IH]; simpl; constructor.
  - rewrite list_elem_of_filter. naive_solver.
  - by apply NoDup_filter.
Qed.

(** The loop keeps, in first-seen order, the words that are no
    stopwords, are longer than one character and are not yet in the
    list. *)
Lemma fold_keep_word stop ws acc :
  fold_left (keep_word stop) ws acc
  = acc ++ filter (fun w => (w ∉ acc) ∧ (w ∉ stop) ∧ (1 < length w))
             (Spec.first_seen ws).
Proof.
  revert acc. induction ws as [|w r IH]; intros acc; simpl.
  - by rewrite app_nil_r.
  - rewrite IH. unfold keep_word, Py.contains.
    destruct (decide ((w ∉ acc) ∧ (w ∉ stop) ∧ (1 < length w))) as [Hk|Hk].
    + destruct Hk as (Ha & Hs & Hl).
      rewrite !bool_decide_eq_false_2 by done.
      apply Nat.ltb_lt in Hl as Hl'. rewrite Hl'. simpl.
      rewrite filter_cons_True by done.
      rewrite <- app_assoc. simpl. do 2 f_equal.
      rewrite list_filter_filter. apply list_filter_iff.
      intros x. rewrite elem_of_app, list_elem_of_singleton. naive_solver.
    + rewrite filter_cons_False by done.
      rewrite list_filter_filter.
      assert (negb (bool_decide (w ∈ stop)) && negb (bool_decide (w ∈ acc))
              && (1 <? length w)%nat = false) as ->.
      { apply not_true_iff_false. rewrite !andb_true_iff, !negb_true_iff.
        rewrite !bool_decide_eq_false, Nat.ltb_lt. naive_solver. }
      f_equal. apply list_filter_iff. naive_solver.
Qed.

Lemma field_words_filter cfg clean :
  field_words cfg clean
  = filter (fun w => (w ∉ self_stopwords cfg) ∧ (1 < length w))
      (Spec.first_seen (Py.split clean)).
Proof.
  unfold field_words. rewrite fold_keep_word. simpl.
  apply list_filter_iff. intros x. rewrite elem_of_nil. naive_solver.
Qed.

Lemma field_words_first_seen cfg clean :
  field_words cfg clean `sublist_of` Spec.first_seen (Py.split clean).
Proof. rewrite field_words_filter. apply sublist_filter. Qed.

Lemma first_seen_tokens s : Forall is_token (Spec.first_seen (Py.split s)).
Proof.
  apply Forall_forall. intros x Hx%first_seen_subset.
  revert x Hx. apply Forall_forall, split_tokens.
Qed.

Lemma drop_various_sublist l : drop_various l `sublist_of` l.
Proof.
  unfold drop_various. destruct (existsb _ l); [apply sublist_nil_l | done].
Qed.

Lemma artist_words_first_seen cfg artist :
  artist_words_of cfg artist
  `sublist_of` Spec.first_seen (Py.split (clean_text artist)).
Proof.
  unfold artist_words_of.
  etrans; [apply drop_various_sublist | apply field_words_first_seen].
Qed.

Lemma title_words_first_seen cfg title :
  title_words_of cfg title
  `sublist_of` Spec.first_seen (Py.split (clean_text title)).
Proof. apply field_words_first_seen. Qed.

(** ** Composition of the keyword list *)

Lemma fold_add_artist_word max_words l acc :
  fold_left (add_artist_word max_words) l acc
  = acc ++ take (Z.to_nat max_words - length acc) l.
Proof.
  revert acc. induction l as [|w r IH]; intros acc; simpl.
  - by rewrite take_nil, app_nil_r.
  - rewrite IH. unfold add_artist_word.
    destruct (Z.ltb_spec (Z.of_nat (length acc)) max_words) as [Hlt|Hge].
    + rewrite length_app. simpl.
      replace (Z.to_nat max_words - length acc)
        with (S (Z.to_nat max_words - (length acc + 1))) by lia.
      simpl. by rewrite <- app_assoc.
    + replace (Z.to_nat max_words - length acc) with 0 by lia.
      by rewrite !take_0.
Qed.

Lemma add_title_words_fill max_words title_words combined :
  add_title_words max_words title_words combined
  = Spec.fill title_words (Z.to_nat max_words - length combined) combined.
Proof.
  revert combined. induction title_words as [|w r IH]; intros c; simpl.
  - done.
  - unfold Py.contains.
    destruct (Z.geb_spec (Z.of_nat (length c)) max_words) as [Hge|Hlt].
    + by replace (Z.to_nat max_words - length c) with 0 by lia.
    + destruct (Z.to_nat max_words - length c) as [|k] eqn:Hk; [lia|].
      destruct (bool_decide (w ∈ c)); simpl.
      * by rewrite IH, Hk.
      * rewrite IH, length_app. simpl. do 2 f_equal. lia.
Qed.

(** The loops of the code compute the composition that the
    specification describes. *)
Lemma combine_words_compose max_words artist_words title_words :
  combine_words max_words artist_words title_words
  = Spec.compose (Z.to_nat max_words) artist_words title_words.
Proof.
  unfold combine_words, Spec.compose, Spec.artist_part.
  rewrite fold_add_artist_word, add_title_words_fill. simpl.
  rewrite Nat.sub_0_r, take_take, (Nat.min_comm _ 2). done.
Qed.

Lemma fill_shape title_tokens slots combined :
  ∃ added,
    Spec.fill title_tokens slots combined = combined ++ added
    ∧ added `sublist_of` title_tokens
    ∧ length added ≤ slots
    ∧ (NoDup combined → NoDup (combined ++ added)).
Proof.
  revert slots combined.
  induction title_tokens as [|t r IH]; intros slots c; simpl.
  - exists []. rewrite app_nil_r. repeat split; [done|simpl; lia|done].
  - destruct slots as [|k].
    + exists []. rewrite app_nil_r.
      repeat split; [apply sublist_nil_l|simpl; lia|done].
    + case_bool_decide as Ht.
      * destruct (IH (S k) c) as (added & -> & Hsub & Hlen & Hnd).
        exists added. repeat split; [by apply sublist_cons|lia|done].
      * destruct (IH k (c ++ [t])) as (added & -> & Hsub & Hlen & Hnd).
        exists (t :: added). rewrite <- app_assoc. simpl.
        repeat split; [by apply sublist_skip|simpl; lia|].
        intros Hc. change (c ++ t :: added) with (c ++ [t] ++ added).
        rewrite (app_assoc c [t] added). apply Hnd.
        apply NoDup_app. repeat split; [done| |apply NoDup_singleton].
        intros x Hx ->%list_elem_of_singleton. done.
Qed.

Lemma compose_shape n artist_tokens title_tokens :
  ∃ added,
    Spec.compose n artist_tokens title_tokens
    = Spec.artist_part n artist_tokens ++ added
    ∧ added `sublist_of` title_tokens
    ∧ length (Spec.artist_part n artist_tokens ++ added) ≤ n
    ∧ (NoDup artist_tokens → NoDup (Spec.artist_part n artist_tokens ++ added)).
Proof.
  unfold Spec.compose.
  destruct (fill_shape title_tokens
              (n - length (Spec.artist_part n artist_tokens))
              (Spec.artist_part n artist_tokens))
    as (added & Heq & Hsub & Hlen & Hnd).
  exists added. repeat split; [done|done| |].
  - rewrite length_app.
    assert (length (Spec.artist_part n artist_tokens) ≤ n); [|lia].
    unfold Spec.artist_part. rewrite length_take. lia.
  - intros Ha. apply Hnd. unfold Spec.artist_part.
    eapply sublist_NoDup; [done|apply sublist_take].
Qed.

Lemma sublist_tokens (l1 l2 : list pystr) :
  l1 `sublist_of` l2 → Forall is_token l2 → Forall is_token l1.
Proof.
  intros Hsub Hl2. apply Forall_forall. intros x Hx.
  eapply Forall_forall; [done|]. by eapply elem_of_sublist.
Qed.

Lemma artist_words_NoDup cfg artist : NoDup (artist_words_of cfg artist).
Proof.
  eapply sublist_NoDup;
    [apply first_seen_NoDup | apply artist_words_first_seen].
Qed.

(** The tokens of the result are the words of the combined list. *)
Lemma split_generate_keywords cfg artist title max_words :
  Py.split (generate_keywords cfg artist title max_words)
  = combine_words (or_max_keywords max_words cfg)
      (artist_words_of cfg artist) (title_words_of cfg title).
Proof.
  unfold generate_keywords. apply split_join.
  rewrite combine_words_compose.
  destruct (compose_shape (Z.to_nat (or_max_keywords max_words cfg))
              (artist_words_of cfg artist) (title_words_of cfg title))
    as (added & -> & Hsub & _ & _).
  apply Forall_app. split.
  - eapply sublist_tokens; [|apply first_seen_tokens].
    etrans; [apply sublist_take | apply artist_words_first_seen].
  - eapply sublist_tokens; [|apply first_seen_tokens].
    etrans; [done | apply title_words_first_seen].
Qed.

(** The number of keywords never exceeds the limit in force, which is
    the argument when it is not zero and [max_keywords] otherwise. *)
Lemma keyword_count_limit cfg artist title max_words :
  (Z.of_nat (length (Py.split (generate_keywords cfg artist title max_words)))
   ≤ Z.max 0 (or_max_keywords max_words cfg))%Z.
Proof.
  rewrite split_generate_keywords, combine_words_compose.
  destruct (compose_shape (Z.to_nat (or_max_keywords max_words cfg))
              (artist_words_of cfg artist) (title_words_of cfg title))
    as (added & -> & _ & Hlen & _).
  lia.
Qed.

(** ** Keyword extraction: the claims *)

(** C2.  For every artist, title and [max_words > 0] the result of
    [generate_keywords] is the composition the specification describes:
    up to the first two artist tokens while the count is below
    [max_words], then title tokens in order into the remaining slots,
    skipping tokens already taken; in particular the keywords of
    "Pink Floyd" / "The Dark Side of the Moon" with [max_words = 2] are
    "pink floyd". *)
Theorem generate_keywords_compose cfg artist title (max_words : Z) :
  (0 < max_words)%Z →
  generate_keywords cfg artist title (Some max_words)
  = Py.join " " (Spec.compose (Z.to_nat max_words)
                   (artist_words_of cfg artist) (title_words_of cfg title))
  ∧ generate_keywords DEFAULT_CONFIG (VStr "Pink Floyd")
      (VStr "The Dark Side of the Moon") (Some 2%Z) = "pink floyd".
Proof.
  intros Hpos. split; [|by vm_compute].
  unfold generate_keywords. rewrite combine_words_compose.
  unfold or_max_keywords.
  destruct (Z.eqb_spec max_words 0) as [->|_]; [lia|done].
Qed.

Lemma generate_keywords_compose_witness :
  generate_keywords DEFAULT_CONFIG (VStr "The Beatles") (VStr "Abbey Road") (Some 2%Z)
  = Py.join " " (Spec.compose (Z.to_nat 2)
                   (artist_words_of DEFAULT_CONFIG (VStr "The Beatles"))
                   (title_words_of DEFAULT_CONFIG (VStr "Abbey Road")))
  ∧ generate_keywords DEFAULT_CONFIG (VStr "Pink Floyd")
      (VStr "The Dark Side of the Moon") (Some 2%Z) = "pink floyd".
Proof.
  apply (generate_keywords_compose DEFAULT_CONFIG (VStr "The Beatles")
           (VStr "Abbey Road") 2%Z).
  lia.
Defined.

(** C3, as stated, fails for [max_words = 0]: zero is falsy, so the
    configured [max_keywords] takes its place and keywords come out. *)
Lemma zero_max_words_not_empty :
  (0 ≤ 0)%Z
  ∧ generate_keywords DEFAULT_CONFIG (VStr "Pink Floyd")
      (VStr "The Dark Side of the Moon") (Some 0%Z)
    = "pink floyd dark side moon"
  ∧ generate_keywords DEFAULT_CONFIG (VStr "Pink Floyd")
      (VStr "The Dark Side of the Moon") (Some 0%Z) ≠ [].
Proof. split; [lia|]. split; by vm_compute. Qed.

(** C3, amended.  For every artist and title, a negative [max_words]
    yields the empty string; [max_words = 0] is treated like an omitted
    argument, so the configured [max_keywords] applies. *)
Theorem negative_max_words_empty cfg artist title (max_words : Z) :
  (max_words < 0)%Z →
  generate_keywords cfg artist title (Some max_words) = []
  ∧ generate_keywords cfg artist title (Some 0%Z)
    = generate_keywords cfg artist title None.
Proof.
  intros Hneg. split; [|done].
  unfold generate_keywords. rewrite combine_words_compose.
  unfold or_max_keywords.
  destruct (Z.eqb_spec max_words 0) as [->|_]; [lia|].
  replace (Z.to_nat max_words) with 0 by lia.
  unfold Spec.compose, Spec.artist_part. simpl. rewrite take_0.
  by destruct (title_words_of cfg title).
Qed.

Lemma negative_max_words_empty_witness :
  generate_keywords DEFAULT_CONFIG (VStr "Pink Floyd")
    (VStr "The Dark Side of the Moon") (Some (-1)%Z) = []
  ∧ generate_keywords DEFAULT_CONFIG (VStr "Pink Floyd")
      (VStr "The Dark Side of the Moon") (Some 0%Z)
    = generate_keywords DEFAULT_CONFIG (VStr "Pink Floyd")
        (VStr "The Dark Side of the Moon") None.
Proof.
  apply (negative_max_words_empty DEFAULT_CONFIG (VStr "Pink Floyd")
           (VStr "The Dark Side of the Moon") (-1)%Z).
  lia.
Defined.

(** C4, as stated, fails for [max_words = 0]: the result then has five
    tokens. *)
Lemma zero_max_words_count :
  length (Py.split (generate_keywords DEFAULT_CONFIG (VStr "Pink Floyd")
                      (VStr "The Dark Side of the Moon") (Some 0%Z))) = 5
  ∧ ¬ (Z.of_nat (length (Py.split (generate_keywords DEFAULT_CONFIG
                                     (VStr "Pink Floyd")
                                     (VStr "The Dark Side of the Moon")
                                     (Some 0%Z)))) ≤ 0)%Z.
Proof.
  assert (H : length (Py.split (generate_keywords DEFAULT_CONFIG
                                  (VStr "Pink Floyd")
                                  (VStr "The Dark Side of the Moon")
                                  (Some 0%Z))) = 5) by by vm_compute.
  split; [done|]. rewrite H. lia.
Qed.

(** C4, amended.  For every artist and title and every integer
    [max_words > 0], the string returned by [generate_keywords] has at
    most [max_words] whitespace-separated tokens. *)
Theorem keyword_count_bounded cfg artist title (max_words : Z) :
  (0 < max_words)%Z →
  (Z.of_nat (length (Py.split (generate_keywords cfg artist title
                                 (Some max_words)))) ≤ max_words)%Z.
Proof.
  intros Hpos.
  pose proof (keyword_count_limit cfg artist title (Some max_words)) as H.
  unfold or_max_keywords in H.
  destruct (Z.eqb_spec max_words 0) as [->|_]; lia.
Qed.

Lemma keyword_count_bounded_witness :
  (Z.of_nat (length (Py.split (generate_keywords DEFAULT_CONFIG
                                 (VStr "Pink Floyd")
                                 (VStr "The Dark Side of the Moon")
                                 (Some 3%Z)))) ≤ 3)%Z.
Proof.
  apply (keyword_count_bounded DEFAULT_CONFIG (VStr "Pink Floyd")
           (VStr "The Dark Side of the Moon") 3%Z).
  lia.
Defined.

(** C5.  For every artist, title and [max_words], the tokens of the
    result are pairwise distinct; they consist of tokens taken from the
    artist followed by tokens taken from the title, each part in the
    order in which its tokens are first seen in the cleaned field. *)
Theorem keywords_distinct_in_order cfg artist title max_words :
  let tokens := Py.split (generate_keywords cfg artist title max_words) in
  NoDup tokens
  ∧ ∃ from_artist from_title,
      tokens = from_artist ++ from_title
      ∧ from_artist `sublist_of` Spec.first_seen (Py.split (clean_text artist))
      ∧ from_title `sublist_of` Spec.first_seen (Py.split (clean_text title)).
Proof.
  simpl. rewrite split_generate_keywords, combine_words_compose.
  set (n := Z.to_nat _).
  destruct (compose_shape n (artist_words_of cfg artist)
              (title_words_of cfg title))
    as (added & -> & Hsub & _ & Hnd).
  split; [apply Hnd, artist_words_NoDup|].
  exists (Spec.artist_part n (artist_words_of cfg artist)), added.
  split; [done|]. split.
  - etrans; [apply sublist_take | apply artist_words_first_seen].
  - etrans; [done | apply title_words_first_seen].
Qed.

(** C6.  When the filtered artist token list contains "various", "va"
    or "compilation", the artist tokens are all discarded and the
    keywords are those of the title alone; in particular the keywords
    of "Various Artists" / "OK Computer" with [max_words = 5] are
    "ok computer". *)
Theorem various_artists_title_only cfg artist title max_words :
  (∃ w, w ∈ VARIOUS ∧ w ∈ field_words cfg (clean_text artist)) →
  artist_words_of cfg artist = []
  ∧ generate_keywords cfg artist title max_words
    = generate_keywords cfg (VStr "") title max_words
  ∧ generate_keywords DEFAULT_CONFIG (VStr "Various Artists")
      (VStr "OK Computer") (Some 5%Z) = "ok computer".
Proof.
  intros (w & Hv & Hw).
  assert (Ha : artist_words_of cfg artist = []).
  { unfold artist_words_of, drop_various.
    assert (existsb (Py.contains VARIOUS)
              (field_words cfg (clean_text artist)) = true) as ->; [|done].
    apply existsb_exists. exists w. split; [by apply list_elem_of_In|].
    unfold Py.contains. by apply bool_decide_eq_true. }
  split; [done|]. split; [|by vm_compute].
  unfold generate_keywords. by rewrite Ha.
Qed.

Lemma various_artists_title_only_witness :
  artist_words_of DEFAULT_CONFIG (VStr "Various Artists") = []
  ∧ generate_keywords DEFAULT_CONFIG (VStr "Various Artists")
      (VStr "OK Computer") (Some 5%Z)
    = generate_keywords DEFAULT_CONFIG (VStr "") (VStr "OK Computer") (Some 5%Z)
  ∧ generate_keywords DEFAULT_CONFIG (VStr "Various Artists")
      (VStr "OK Computer") (Some 5%Z) = "ok computer".
Proof.
  apply (various_artists_title_only DEFAULT_CONFIG (VStr "Various Artists")
           (VStr "OK Computer") (Some 5%Z)).
  exists ("various" : pystr). split.
  - apply (bool_decide_unpack _). vm_compute. exact I.
  - apply (bool_decide_unpack _). vm_compute. exact I.
Defined.

(** ** Column detection *)

Lemma first_column_first_present columns candidates :
  Spec.first_present columns candidates (first_column columns candidates).
Proof.
  induction candidates as [|c r IH]; simpl; [constructor|].
  unfold Py.contains. case_bool_decide as Hc.
  - exists [], r. by repeat split.
  - destruct (first_column columns r) as [d|]; simpl in *.
    + destruct IH as (before & after & -> & Hd & Hbefore).
      exists (c :: before), after. repeat split; [done|by constructor].
    + by constructor.
Qed.

(** C8.  For every schema and candidate lists, [detect_columns] returns
    for the artist role and for the title role, each on its own, the
    first candidate in list order that is a column label, and [None]
    for a role none of whose candidates is one. *)
Theorem detect_columns_first_present cfg df :
  Spec.first_present (df_columns df) (artist_columns cfg) (detect_columns cfg df).1
  ∧ Spec.first_present (df_columns df) (title_columns cfg) (detect_columns cfg df).2.
Proof. split; apply first_column_first_present. Qed.

(** ** Running the steps of a call *)

Lemma run_bind {A B} (m : M A) (k : A → M B) w :
  (m ≫= k) w
  = match m w with
    | (Return a, w') => k a w'
    | (Raise e, w') => (Raise e, w')
    end.
Proof. reflexivity. Qed.

Lemma run_return {A B} (m : M A) (k : A → M B) w a w' :
  m w = (Return a, w') → (m ≫= k) w = k a w'.
Proof. intros H. by rewrite run_bind, H. Qed.

Lemma world_eta w : {| frame := frame w; logged := logged w |} = w.
Proof. by destruct w. Qed.

(** ** The schema checks of [process_dataframe] *)

Lemma resolve_columns_col_or cfg df artist_col title_col :
  resolve_columns cfg df artist_col title_col
  = (col_or artist_col (detect_columns cfg df).1,
     col_or title_col (detect_columns cfg df).2).
Proof.
  unfold resolve_columns, col_or.
  destruct (truthy artist_col), (truthy title_col); done.
Qed.

Lemma truthy_col_or explicit detected :
  truthy (col_or explicit detected) = false ↔ Spec.unresolved explicit detected.
Proof.
  unfold col_or, Spec.unresolved.
  destruct (truthy explicit) eqn:He; [rewrite He|]; naive_solver.
Qed.

Lemma first_column_elem columns candidates c :
  first_column columns candidates = Some c → c ∈ columns.
Proof.
  intros H. pose proof (first_column_first_present columns candidates) as Hp.
  rewrite H in Hp. by destruct Hp as (_ & _ & _ & Hc & _).
Qed.

Lemma truthy_Some col : truthy col = true → ∃ c, col = Some c ∧ c ≠ [].
Proof. destruct col as [[|x r]|]; simpl; [done| |done]. by exists (x :: r). Qed.

(** A resolved column that is not a label of the frame was given by the
    caller. *)
Lemma col_or_absent explicit columns candidates c :
  col_or explicit (first_column columns candidates) = Some c →
  c ∉ columns → explicit = Some c.
Proof.
  unfold col_or. destruct (truthy explicit); [done|].
  intros H%first_column_elem. done.
Qed.

Lemma occurs_in_suffix (x before : pystr) : Spec.occurs_in x (before ++ x).
Proof. exists before, []. by rewrite app_nil_r. Qed.

(** C1, as stated, fails for a column that the caller names and the
    frame lacks: the message names that column and does not show the
    labels of the frame. *)
Lemma missing_column_message_without_schema :
  Spec.absent (Some ("Band" : pystr)) two_records
  ∧ process_dataframe DEFAULT_CONFIG (Some ("Band" : pystr)) None None
      (fresh two_records)
    = (Raise (ValueError "Artist column 'Band' not found in data"),
       fresh two_records)
  ∧ ¬ Spec.reports_schema "Artist column 'Band' not found in data" two_records.
Proof.
  split; [|split].
  - exists ("Band" : pystr). repeat split; [done|].
    intros H. apply (bool_decide_pack _) in H. vm_compute in H. exact H.
  - by vm_compute.
  - intros (before & after & H).
    assert (Hin : "["%char ∈ (list_ascii_of_string
                                "Artist column 'Band' not found in data")).
    { rewrite H. unfold Lib.repr_list.
      rewrite !elem_of_app. right. left. left. by left. }
    apply (bool_decide_pack _) in Hin. vm_compute in Hin. exact Hin.
Qed.

(** C1, amended.  When a role is neither given nor detected, or a given
    column is not a label of the frame, [process_dataframe] raises a
    [ValueError] and leaves the frame and the log as they were: nothing
    is appended.  The message shows the labels of the frame when a role
    is unresolved; otherwise it names the given column that is absent,
    the artist column first. *)
Theorem process_dataframe_schema_error cfg artist_col title_col engines w :
  let df := frame w in
  let detected := detect_columns cfg df in
  Spec.unresolved artist_col detected.1 ∨ Spec.unresolved title_col detected.2
  ∨ Spec.absent artist_col df ∨ Spec.absent title_col df →
  ∃ msg,
    process_dataframe cfg artist_col title_col engines w
    = (Raise (ValueError msg), w)
    ∧ (Spec.unresolved artist_col detected.1
       ∨ Spec.unresolved title_col detected.2 →
       Spec.reports_schema msg df)
    ∧ (¬ (Spec.unresolved artist_col detected.1
          ∨ Spec.unresolved title_col detected.2) →
       (∀ c, artist_col = Some c → c ≠ [] → c ∉ df_columns df →
             msg = "Artist column '" ++ c ++ "' not found in data")
       ∧ (¬ Spec.absent artist_col df →
          ∀ c, title_col = Some c → c ≠ [] → c ∉ df_columns df →
               msg = "Title column '" ++ c ++ "' not found in data")).
Proof.
  intros df detected H.
  unfold process_dataframe. rewrite run_bind.
  change (get_frame w) with (Return df, w). cbv beta iota.
  rewrite resolve_columns_col_or. fold df detected.
  destruct (truthy (col_or artist_col detected.1)) eqn:Ha; cycle 1.
  { eexists. split; [reflexivity|]. split.
    - intros _. apply occurs_in_suffix.
    - intros []. left. by apply truthy_col_or. }
  destruct (truthy (col_or title_col detected.2)) eqn:Ht; cycle 1.
  { eexists. split; [reflexivity|]. split.
    - intros _. apply occurs_in_suffix.
    - intros []. right. by apply truthy_col_or. }
  assert (Hres : ¬ (Spec.unresolved artist_col detected.1
                    ∨ Spec.unresolved title_col detected.2)).
  { rewrite <- !truthy_col_or. rewrite Ha, Ht. by intros [|]. }
  destruct (truthy_Some _ Ha) as (a & Hae & Hane).
  destruct (truthy_Some _ Ht) as (t & Hte & Htne).
  rewrite Hae, Hte. cbv beta iota delta [negb orb default id from_option].
  unfold Py.contains.
  case_bool_decide as Hin.
  - case_bool_decide as Hin2.
    + exfalso. destruct H as [H|[H|[H|H]]]; [tauto|tauto| |].
      * destruct H as (c & -> & Hc & Hcn).
        unfold col_or in Hae. simpl in Hae. destruct c; [done|].
        simpl in Hae. by simplify_eq.
      * destruct H as (c & -> & Hc & Hcn).
        unfold col_or in Hte. simpl in Hte. destruct c; [done|].
        simpl in Hte. by simplify_eq.
    + eexists. split; [reflexivity|]. split; [done|]. intros _. split.
      * intros c -> Hc Hcn. unfold col_or in Hae. destruct c; [done|].
        simpl in Hae. by simplify_eq.
      * intros _ c -> Hc Hcn. unfold col_or in Hte. destruct c; [done|].
        simpl in Hte. by simplify_eq.
  - eexists. split; [reflexivity|]. split; [done|]. intros _. split.
    + intros c -> Hc Hcn. unfold col_or in Hae. destruct c; [done|].
      simpl in Hae. by simplify_eq.
    + intros Hna. exfalso. apply Hna. exists a. split; [|done].
      unfold detected, detect_columns in Hae. simpl in Hae.
      by apply col_or_absent in Hae.
Qed.

Lemma process_dataframe_schema_error_witness :
  ∃ msg,
    process_dataframe DEFAULT_CONFIG None None None
      (fresh [("Band" : pystr, [VStr "Queen"]); ("Title" : pystr, [VStr "Jazz"])])
    = (Raise (ValueError msg),
       fresh [("Band" : pystr, [VStr "Queen"]); ("Title" : pystr, [VStr "Jazz"])])
    ∧ Spec.reports_schema msg
        [("Band" : pystr, [VStr "Queen"]); ("Title" : pystr, [VStr "Jazz"])].
Proof.
  destruct (process_dataframe_schema_error DEFAULT_CONFIG None None None
              (fresh [("Band" : pystr, [VStr "Queen"]);
                      ("Title" : pystr, [VStr "Jazz"])]))
    as (msg & Hrun & Hrep & _).
  - left. split; reflexivity.
  - exists msg. split; [exact Hrun|]. apply Hrep. left. split; reflexivity.
Defined.

(** ** The link builder *)

(** Whether a template can be formatted does not depend on the query. *)
Lemma format_from_is_Some skip q q' s :
  is_Some (Lib.format_from skip q s) → is_Some (Lib.format_from skip q' s).
Proof.
  revert skip. induction s as [|c r IH]; intros skip; simpl; [done|].
  destruct skip as [|k]; [|apply IH].
  repeat case_decide; repeat case_match; try done;
    rewrite !fmap_is_Some; apply IH.
Qed.

Lemma format_ok cfg e template query :
  Spec.templates_ok cfg → search_engines cfg !! e = Some template →
  ∃ url, Lib.format template query = Some url.
Proof.
  intros Hok He. apply (format_from_is_Some 0 []). by apply (Hok e).
Qed.

Lemma unknown_warnings_known cfg e template rest :
  search_engines cfg !! e = Some template →
  Spec.unknown_warnings cfg (e :: rest) = Spec.unknown_warnings cfg rest.
Proof.
  intros He. unfold Spec.unknown_warnings.
  rewrite filter_cons_False; [done|]. by rewrite He.
Qed.

Lemma unknown_warnings_unknown cfg e rest :
  search_engines cfg !! e = None →
  Spec.unknown_warnings cfg (e :: rest)
  = (WARNING, "Unknown search engine: " ++ e) :: Spec.unknown_warnings cfg rest.
Proof.
  intros He. unfold Spec.unknown_warnings.
  by rewrite filter_cons_True.
Qed.

(** The loop of [generate_search_links]: it returns, logs one warning
    per unknown engine, and adds exactly the known engines. *)
Lemma add_links_run cfg query engines links w :
  Spec.templates_ok cfg →
  ∃ links',
    add_links cfg query engines links w
    = (Return links',
       {| frame := frame w;
          logged := logged w ++ Spec.unknown_warnings cfg engines |})
    ∧ (∀ e, e ∈ dom links'
            ↔ e ∈ dom links ∨ (e ∈ engines ∧ e ∈ dom (search_engines cfg)))
    ∧ (∀ e template, e ∈ engines → search_engines cfg !! e = Some template →
                     links' !! e = Lib.format template query)
    ∧ (∀ e, e ∉ engines → links' !! e = links !! e).
Proof.
  intros Hok. revert links w.
  induction engines as [|e rest IH]; intros links w; cbn [add_links].
  - exists links. unfold Spec.unknown_warnings. simpl.
    rewrite app_nil_r, world_eta. split; [done|].
    split; [|split; [|done]].
    + intros x. rewrite elem_of_nil. naive_solver.
    + intros x t Hx. by apply elem_of_nil in Hx.
  - destruct (search_engines cfg !! e) as [template|] eqn:He.
    + destruct (format_ok cfg e template query Hok He) as [url Hurl].
      unfold format_url. rewrite Hurl.
      destruct (IH (<[e:=url]> links) w) as (links' & Hrun & Hdom & Hknown & Hother).
      exists links'. split; [|split; [|split]].
      * rewrite run_bind. unfold mret, M_ret.
        cbv beta iota. rewrite Hrun.
        by rewrite (unknown_warnings_known cfg e template).
      * intros x. rewrite Hdom, dom_insert, elem_of_union, elem_of_singleton,
          elem_of_cons.
        split; [|naive_solver].
        intros [[->|?]|[? ?]]; [|by left|by right; split; [right|]].
        right. split; [by left|]. apply elem_of_dom. by exists template.
      * intros x t Hx Hxt.
        destruct (decide (x ∈ rest)) as [Hin|Hnin]; [by apply Hknown|].
        apply elem_of_cons in Hx as [->|?]; [|done].
        rewrite Hother by done. rewrite lookup_insert_eq.
        by simplify_eq.
      * intros x Hx. apply not_elem_of_cons in Hx as [Hne Hx].
        rewrite Hother by done. by rewrite lookup_insert_ne.
    + destruct (IH links
                  {| frame := frame w;
                     logged := logged w
                               ++ [(WARNING, "Unknown search engine: " ++ e)] |})
        as (links' & Hrun & Hdom & Hknown & Hother).
      cbn [frame logged] in Hrun.
      exists links'. split; [|split; [|split]].
      * rewrite run_bind.
        change (log WARNING ("Unknown search engine: " ++ e) w)
          with (Return tt,
                {| frame := frame w;
                   logged := logged w
                             ++ [(WARNING, "Unknown search engine: " ++ e)] |}).
        cbv beta iota. rewrite Hrun.
        rewrite (unknown_warnings_unknown cfg e) by done.
        by rewrite <- app_assoc.
      * intros x. rewrite Hdom, elem_of_cons.
        split; [naive_solver|].
        intros [?|[[->|?] Hd]]; [by left| |by right].
        apply elem_of_dom in Hd as [? Hd]. by simplify_eq.
      * intros x t Hx Hxt.
        apply elem_of_cons in Hx as [->|?]; [by simplify_eq|].
        by apply Hknown.
      * intros x Hx. apply not_elem_of_cons in Hx as [Hne Hx]. by apply Hother.
Qed.

(** C9, as stated, fails for an empty request: the default engine is
    used instead, so the result has a key that was not requested. *)
Lemma empty_request_uses_default :
  generate_search_links DEFAULT_CONFIG "abbey road" (Some []) (fresh two_records)
  = (Return {[ ("wikipedia" : pystr)
               := ("https://en.wikipedia.org/wiki/Special:Search?search=abbey+road"
                   : pystr) ]},
     fresh two_records)
  ∧ ¬ Spec.keys_are_known_requested DEFAULT_CONFIG []
        {[ ("wikipedia" : pystr)
           := ("https://en.wikipedia.org/wiki/Special:Search?search=abbey+road"
               : pystr) ]}.
Proof.
  split; [by vm_compute|].
  intros H. destruct (H ("wikipedia" : pystr)) as [H1 _].
  destruct H1 as [H1 _]; [|by apply elem_of_nil in H1].
  rewrite dom_singleton. by apply elem_of_singleton.
Qed.

(** C9, amended.  For a registry whose templates can be formatted, every
    keywords string and every non-empty list of requested engines,
    [generate_search_links] returns a dictionary whose keys are exactly
    the requested engines that the registry knows, each with its
    formatted URL; a requested engine that the registry lacks is logged
    as a warning and skipped, and nothing is raised.  (An empty list is
    replaced by the default engine.) *)
Theorem generate_search_links_keys cfg keywords engines w :
  Spec.templates_ok cfg →
  engines ≠ [] →
  ∃ links,
    generate_search_links cfg keywords (Some engines) w
    = (Return links,
       {| frame := frame w;
          logged := logged w ++ Spec.unknown_warnings cfg engines |})
    ∧ Spec.keys_are_known_requested cfg engines links
    ∧ (∀ e template, e ∈ engines → search_engines cfg !! e = Some template →
                     links !! e = Lib.format template (Lib.quote_plus keywords)).
Proof.
  intros Hok Hne. unfold generate_search_links.
  assert (engines_or_default cfg (Some engines) = engines) as ->.
  { by destruct engines. }
  destruct (add_links_run cfg (Lib.quote_plus keywords) engines ∅ w Hok)
    as (links & Hrun & Hdom & Hknown & _).
  exists links. split; [done|]. split; [|done].
  intros e. rewrite Hdom, dom_empty, elem_of_empty. naive_solver.
Qed.

Lemma default_templates_ok : Spec.templates_ok DEFAULT_CONFIG.
Proof. apply (bool_decide_unpack _). vm_compute. exact I. Defined.

Lemma generate_search_links_keys_witness :
  ∃ links,
    generate_search_links DEFAULT_CONFIG "abbey road"
      (Some ["wikipedia" : pystr; "bogus" : pystr; "spotify" : pystr])
      (fresh two_records)
    = (Return links,
       {| frame := two_records;
          logged := [] ++ Spec.unknown_warnings DEFAULT_CONFIG
                            ["wikipedia" : pystr; "bogus" : pystr; "spotify" : pystr] |})
    ∧ Spec.keys_are_known_requested DEFAULT_CONFIG
        ["wikipedia" : pystr; "bogus" : pystr; "spotify" : pystr] links
    ∧ (∀ e template,
         e ∈ ["wikipedia" : pystr; "bogus" : pystr; "spotify" : pystr] →
         search_engines DEFAULT_CONFIG !! e = Some template →
         links !! e = Lib.format template (Lib.quote_plus "abbey road")).
Proof.
  apply (generate_search_links_keys DEFAULT_CONFIG "abbey road"
           ["wikipedia" : pystr; "bogus" : pystr; "spotify" : pystr]
           (fresh two_records)).
  - exact default_templates_ok.
  - discriminate.
Defined.

(** ** The data frame *)

Lemma df_lookup_assign df c cells c' :
  df_lookup (df_assign df c cells) c'
  = if decide (c = c') then Some cells else df_lookup df c'.
Proof.
  induction df as [|[d old] rest IH]; simpl.
  - by destruct (decide (c = c')).
  - destruct (decide (d = c)) as [->|Hdc]; simpl.
    + by destruct (decide (c = c')).
    + destruct (decide (d = c')) as [->|Hdc'].
      * by rewrite decide_False by (intros ->; done).
      * apply IH.
Qed.

Lemma df_columns_assign df c cells c' :
  c' ∈ df_columns (df_assign df c cells) ↔ c' = c ∨ c' ∈ df_columns df.
Proof.
  unfold df_columns. induction df as [|[d old] rest IH]; simpl.
  - rewrite list_elem_of_singleton, elem_of_nil. naive_solver.
  - destruct (decide (d = c)) as [->|Hdc]; simpl.
    + rewrite !elem_of_cons. naive_solver.
    + rewrite !elem_of_cons, IH. naive_solver.
Qed.

Lemma df_lookup_is_Some df c : c ∈ df_columns df ↔ is_Some (df_lookup df c).
Proof.
  unfold df_columns. induction df as [|[d old] rest IH]; simpl.
  - rewrite elem_of_nil. split; [done|]. by intros [? ?].
  - rewrite elem_of_cons. destruct (decide (d = c)) as [->|Hdc].
    + split; [by eexists|by left].
    + rewrite <- IH. naive_solver.
Qed.

Lemma get_column_run c cells w :
  df_lookup (frame w) c = Some cells → get_column c w = (Return cells, w).
Proof.
  intros H. unfold get_column. rewrite run_bind.
  change (get_frame w) with (Return (frame w), w). cbv beta iota.
  by rewrite H.
Qed.

Lemma set_column_run c cells w :
  set_column c cells w
  = (Return tt,
     {| frame := df_assign (frame w) c cells; logged := logged w |}).
Proof. reflexivity. Qed.

Lemma log_run lv msg w :
  log lv msg w
  = (Return tt, {| frame := frame w; logged := logged w ++ [(lv, msg)] |}).
Proof. reflexivity. Qed.

(** ** The loop over the requested engines *)

Lemma link_cell_run cfg e kw w :
  Spec.templates_ok cfg →
  ∃ logs,
    link_cell cfg e (VStr kw) w
    = (Return (VStr (link_text cfg e kw)),
       {| frame := frame w; logged := logged w ++ logs |}).
Proof.
  intros Hok. unfold link_cell, generate_search_links.
  change (engines_or_default cfg (Some [e])) with [e].
  destruct (add_links_run cfg (Lib.quote_plus kw) [e] ∅ w Hok)
    as (links & Hrun & Hdom & Hknown & _).
  exists (Spec.unknown_warnings cfg [e]).
  rewrite run_bind, Hrun. unfold mret, M_ret. do 3 f_equal.
  unfold link_text.
  destruct (search_engines cfg !! e) as [template|] eqn:He.
  - erewrite Hknown; [done|by left|done].
  - assert (links !! e = None) as ->; [|done].
    apply not_elem_of_dom. rewrite Hdom, dom_empty, elem_of_empty.
    intros [[]|[_ Hd]]. apply elem_of_dom in Hd as [? Hd]. by simplify_eq.
Qed.

Lemma map_each_link_cell cfg e kws w :
  Spec.templates_ok cfg →
  ∃ logs,
    map_each (link_cell cfg e) (map VStr kws) w
    = (Return (link_cells cfg e kws),
       {| frame := frame w; logged := logged w ++ logs |}).
Proof.
  intros Hok. revert w.
  induction kws as [|kw rest IH]; intros w; cbn [map map_each link_cells].
  - exists []. by rewrite app_nil_r, world_eta.
  - destruct (link_cell_run cfg e kw w Hok) as [logs1 H1].
    destruct (IH {| frame := frame w; logged := logged w ++ logs1 |})
      as [logs2 H2].
    cbn [frame logged] in H2.
    exists (logs1 ++ logs2).
    rewrite run_bind, H1, run_bind, H2. unfold mret, M_ret.
    by rewrite app_assoc.
Qed.

(** The label of a link field that can be written. *)
Lemma link_field_label e :
  is_Some (Spec.link_field e) →
  ∃ titled, Py.title e = Some titled ∧ link_label e = titled ++ "_Link"
            ∧ Spec.link_field e = Some (link_label e).
Proof.
  unfold Spec.link_field, link_label. intros [col H].
  destruct (Py.title e) as [titled|]; [|discriminate]. by exists titled.
Qed.

Lemma link_field_Some e col :
  Spec.link_field e = Some col → link_label e = col.
Proof.
  unfold Spec.link_field, link_label.
  destruct (Py.title e); simpl; congruence.
Qed.

Lemma titles_ok_label engines e :
  Spec.titles_ok engines → e ∈ engines →
  Spec.link_field e = Some (link_label e).
Proof.
  intros Hall He. unfold Spec.titles_ok in Hall.
  rewrite Forall_forall in Hall.
  by destruct (link_field_label e (Hall e He)) as (? & _ & _ & ?).
Qed.

Lemma add_link_column_run cfg e kws w :
  Spec.templates_ok cfg →
  is_Some (Spec.link_field e) →
  df_lookup (frame w) "Keywords" = Some (map VStr kws) →
  ∃ logs,
    add_link_column cfg e w
    = (Return tt,
       {| frame := df_assign (frame w) (link_label e)
                     (link_cells cfg e kws);
          logged := logged w ++ logs |}).
Proof.
  intros Hok He Hkw. unfold add_link_column.
  destruct (link_field_label e He) as (titled & -> & -> & _).
  destruct (map_each_link_cell cfg e kws w Hok) as [logs Hcells].
  exists logs.
  rewrite (run_return _ _ _ _ _ (get_column_run _ _ _ Hkw)).
  rewrite run_bind, Hcells. by rewrite set_column_run.
Qed.

Lemma link_label_not_keywords e : link_label e ≠ "Keywords".
Proof.
  unfold link_label. intros H.
  change (list_ascii_of_string "_Link")
    with (list_ascii_of_string "_Lin" ++ ["k"%char]) in H.
  change (list_ascii_of_string "Keywords")
    with (list_ascii_of_string "Keyword" ++ ["s"%char]) in H.
  rewrite app_assoc in H. apply app_inj_tail in H as [_ H]. discriminate.
Qed.

Lemma for_each_add_link_column cfg engines kws w :
  Spec.templates_ok cfg →
  Spec.titles_ok engines →
  df_lookup (frame w) "Keywords" = Some (map VStr kws) →
  ∃ logs,
    for_each (add_link_column cfg) engines w
    = (Return tt,
       {| frame := write_links cfg kws (frame w) engines;
          logged := logged w ++ logs |}).
Proof.
  intros Hok Htitles. revert w.
  induction engines as [|e rest IH]; intros w Hkw;
    cbn [for_each write_links fold_left].
  - exists []. by rewrite app_nil_r, world_eta.
  - apply Forall_cons in Htitles as [He Hrest]. specialize (IH Hrest).
    destruct (add_link_column_run cfg e kws w Hok He Hkw) as [logs1 H1].
    destruct (IH {| frame := df_assign (frame w) (link_label e)
                               (link_cells cfg e kws);
                    logged := logged w ++ logs1 |}) as [logs2 H2].
    { cbn [frame]. rewrite df_lookup_assign.
      rewrite decide_False; [done|]. apply link_label_not_keywords. }
    cbn [frame logged] in H2.
    exists (logs1 ++ logs2).
    rewrite run_bind, H1, H2. by rewrite app_assoc.
Qed.

Lemma write_links_columns cfg kws df engines c :
  c ∈ df_columns (write_links cfg kws df engines)
  ↔ c ∈ df_columns df ∨ ∃ e, e ∈ engines ∧ link_label e = c.
Proof.
  revert df. induction engines as [|e rest IH]; intros df;
    cbn [write_links fold_left].
  - setoid_rewrite elem_of_nil. naive_solver.
  - unfold write_links in IH. rewrite IH, df_columns_assign.
    setoid_rewrite elem_of_cons. unfold link_label. naive_solver.
Qed.

Lemma link_cells_unknown cfg e kws :
  search_engines cfg !! e = None →
  link_cells cfg e kws = map (fun _ => VStr []) kws.
Proof.
  intros He. unfold link_cells, link_text. by rewrite He.
Qed.

(** A field written only for unknown engines ends up empty in every
    row. *)
Lemma write_links_unknown cfg kws df engines c :
  (∀ e, e ∈ engines → link_label e = c → search_engines cfg !! e = None) →
  df_lookup df c = Some (map (fun _ => VStr []) kws)
  ∨ (∃ e, e ∈ engines ∧ link_label e = c) →
  df_lookup (write_links cfg kws df engines) c
  = Some (map (fun _ => VStr []) kws).
Proof.
  revert df. induction engines as [|e rest IH]; intros df Hunk Hc;
    cbn [write_links fold_left].
  - destruct Hc as [Hc|(e & He & _)]; [done|]. by apply elem_of_nil in He.
  - unfold write_links in IH. apply IH.
    + intros x Hx. apply Hunk. by right.
    + rewrite df_lookup_assign.
      destruct (decide (link_label e = c)) as [Hec|Hec].
      * left. rewrite link_cells_unknown; [done|]. apply Hunk; [by left|done].
      * destruct Hc as [Hc|(x & Hx & Hxc)]; [by left|].
        apply elem_of_cons in Hx as [->|Hx]; [done|]. right. by exists x.
Qed.

(** ** The record pipeline on resolved columns *)

Lemma zip_with_VStr cfg artists titles :
  zip_with (fun artist title => VStr (generate_keywords cfg artist title None))
    artists titles
  = map VStr (keyword_texts cfg artists titles).
Proof.
  unfold keyword_texts. revert titles.
  induction artists as [|x r IH]; intros [|y titles]; simpl; [done..|].
  by rewrite IH.
Qed.

Lemma engines_or_default_cons cfg search_engines :
  ∃ primary rest, engines_or_default cfg search_engines = primary :: rest.
Proof. destruct search_engines as [[|e l]|]; simpl; eauto. Qed.

Lemma process_dataframe_run cfg artist_col title_col search_engines w a t :
  Spec.templates_ok cfg →
  Spec.titles_ok (engines_or_default cfg search_engines) →
  Spec.resolved cfg (frame w) artist_col title_col a t →
  ∃ artists titles primary cells logs,
    df_lookup (frame w) a = Some artists
    ∧ df_lookup (frame w) t = Some titles
    ∧ head (engines_or_default cfg search_engines) = Some primary
    ∧ let kws := keyword_texts cfg artists titles in
      let df1 :=
        write_links cfg kws (df_assign (frame w) "Keywords" (map VStr kws))
          (engines_or_default cfg search_engines) in
      df_lookup df1 (link_label primary) = Some cells
      ∧ process_dataframe cfg artist_col title_col search_engines w
        = (Return (df_assign df1 "Search_Link" cells),
           {| frame := df_assign df1 "Search_Link" cells; logged := logs |}).
Proof.
  intros Hok Htitles (Hres & Han & Htn & Ha & Ht).
  apply df_lookup_is_Some in Ha as [artists Hart].
  apply df_lookup_is_Some in Ht as [titles Htit].
  destruct (engines_or_default_cons cfg search_engines) as (p & rest & Heng).
  rewrite Heng in Htitles.
  destruct (link_field_label p (Forall_inv Htitles))
    as (titled & Htitled & Hlabel & _).
  set (kws := keyword_texts cfg artists titles).
  set (df0 := df_assign (frame w) "Keywords" (map VStr kws)).
  assert (Hp : is_Some (df_lookup (write_links cfg kws df0 (p :: rest))
                          (link_label p))).
  { apply df_lookup_is_Some, write_links_columns. right. exists p.
    split; [by left|done]. }
  destruct Hp as [cells Hcells].
  assert (Hrun : ∃ logs,
             process_dataframe cfg artist_col title_col search_engines w
             = (Return (df_assign (write_links cfg kws df0 (p :: rest))
                          "Search_Link" cells),
                {| frame := df_assign (write_links cfg kws df0 (p :: rest))
                              "Search_Link" cells;
                   logged := logs |})); cycle 1.
  { destruct Hrun as [logs Hrun]. exists artists, titles, p, cells, logs.
    rewrite Heng. by repeat split. }
  unfold process_dataframe. rewrite run_bind.
  change (get_frame w) with (Return (frame w), w). cbv beta iota.
  rewrite Hres, Heng. cbv beta iota.
  destruct a as [|xa a']; [done|]. destruct t as [|xt t']; [done|].
  cbn [truthy negb orb default from_option id].
  unfold Py.contains.
  rewrite !bool_decide_eq_true_2
    by (apply df_lookup_is_Some; eauto).
  cbn [negb].
  rewrite run_bind, log_run. cbv beta iota. cbn [frame logged].
  rewrite run_bind, log_run. cbv beta iota. cbn [frame logged].
  rewrite run_bind, log_run. cbv beta iota. cbn [frame logged].
  erewrite run_return by (apply get_column_run; exact Hart).
  erewrite run_return by (apply get_column_run; exact Htit).
  rewrite run_bind, set_column_run. cbv beta iota. cbn [frame logged].
  rewrite zip_with_VStr. fold kws df0.
  rewrite run_bind, log_run. cbv beta iota. cbn [frame logged].
  rewrite run_bind.
  match goal with
  | |- context [for_each _ _ ?W] =>
      destruct (for_each_add_link_column cfg (p :: rest) kws W Hok Htitles)
        as [logs2 H2]
  end.
  { cbn [frame]. unfold df0. rewrite df_lookup_assign. by rewrite decide_True. }
  cbn [frame logged] in H2. rewrite H2, Htitled.
  rewrite Hlabel in Hcells.
  erewrite run_return by (apply get_column_run; exact Hcells).
  rewrite run_bind, set_column_run. cbv beta iota. cbn [frame logged].
  eexists. reflexivity.
Qed.

Lemma empty_cells_Forall (kws : list pystr) :
  Forall (fun v => v = VStr []) (map (fun _ => VStr []) kws).
Proof. induction kws; simpl; by constructor. Qed.

(** C10, as stated, fails when a later requested engine of the registry
    has the same title-cased name as an unknown one: requesting
    "Wikipedia" (unknown) and then "wikipedia" writes the field
    [Wikipedia_Link] twice, the second time with the links, and
    [Search_Link] copies them although the first requested engine is
    unknown. *)
Lemma unknown_engine_field_overwritten :
  search_engines DEFAULT_CONFIG !! ("Wikipedia" : pystr) = None
  ∧ Spec.link_field "Wikipedia" = Some ("Wikipedia_Link" : pystr)
  ∧ NoDup (df_columns two_records)
  ∧ ∃ df' w',
      process_dataframe DEFAULT_CONFIG None None
        (Some ["Wikipedia" : pystr; "wikipedia" : pystr]) (fresh two_records)
      = (Return df', w')
      ∧ df_lookup df' "Wikipedia_Link"
        = Some [VStr "https://en.wikipedia.org/wiki/Special:Search?search=queen+night+opera";
                VStr "https://en.wikipedia.org/wiki/Special:Search?search=nirvana+nevermind"]
      ∧ df_lookup df' "Search_Link"
        = Some [VStr "https://en.wikipedia.org/wiki/Special:Search?search=queen+night+opera";
                VStr "https://en.wikipedia.org/wiki/Special:Search?search=nirvana+nevermind"]
      ∧ ¬ Spec.field_is_empty df' "Wikipedia_Link"
      ∧ ¬ Spec.field_is_empty df' "Search_Link".
Proof.
  split; [by vm_compute|]. split; [reflexivity|].
  split; [apply (bool_decide_unpack _); vm_compute; exact I|].
  eexists _, _. split; [vm_compute; reflexivity|].
  split; [by vm_compute|]. split; [by vm_compute|].
  split; intros (cells & Hl & Hall); vm_compute in Hl;
    injection Hl as <-; inversion Hall as [|? ? Hhd _]; discriminate Hhd.
Qed.

(** C10, amended.  On a frame with distinct labels, when the columns
    resolve, the templates can be formatted and the title-cased
    identifiers of the requested engines stay within U+00FF,
    [process_dataframe] returns the frame with a field [<Engine>_Link]
    for every requested engine, also for engines that the registry
    lacks, and with the field [Search_Link].  The field of an engine
    holds the empty string in every row when no requested engine of the
    registry writes to the same field and the field is not
    [Search_Link] itself; [Search_Link] holds the empty string in every
    row when no requested engine of the registry writes to the field of
    the first requested engine.  (The requested engines are the given
    list, or the default engine when the list is empty or omitted;
    [<Engine>] is the identifier as [str.title] gives it, so two
    identifiers can share a field.) *)
Theorem process_dataframe_link_fields cfg artist_col title_col requested
    w a t :
  Spec.templates_ok cfg →
  NoDup (df_columns (frame w)) →
  Spec.resolved cfg (frame w) artist_col title_col a t →
  let engines := engines_or_default cfg requested in
  Spec.titles_ok engines →
  ∃ df' w',
    process_dataframe cfg artist_col title_col requested w = (Return df', w')
    ∧ frame w' = df'
    ∧ (∀ e, e ∈ engines →
            ∃ col, Spec.link_field e = Some col ∧ col ∈ df_columns df')
    ∧ (∀ e col, e ∈ engines →
            Spec.link_field e = Some col →
            Spec.only_unknown_write cfg engines col →
            col ≠ "Search_Link" →
            Spec.field_is_empty df' col)
    ∧ ("Search_Link" : pystr) ∈ df_columns df'
    ∧ (∀ primary rest col, engines = primary :: rest →
            Spec.link_field primary = Some col →
            Spec.only_unknown_write cfg engines col →
            Spec.field_is_empty df' "Search_Link").
Proof.
  intros Hok _ Hres engines Htitles.
  destruct (process_dataframe_run cfg artist_col title_col requested
              w a t Hok Htitles Hres)
    as (artists & titles & primary & cells & logs & _ & _ & Hhd & H).
  cbv zeta in H. fold engines in H, Hhd. destruct H as [Hcells Hrun].
  set (kws := keyword_texts cfg artists titles) in *.
  set (df0 := df_assign (frame w) "Keywords" (map VStr kws)) in *.
  assert (Hunknown : ∀ col, Spec.only_unknown_write cfg engines col →
            ∀ e, e ∈ engines → link_label e = col →
                 search_engines cfg !! e = None).
  { intros col Hunk e He Hlabel. apply Hunk; [done|].
    by rewrite (titles_ok_label engines e Htitles He), Hlabel. }
  eexists _, _. split; [exact Hrun|]. split; [done|].
  split; [|split; [|split]].
  - intros e He. exists (link_label e).
    split; [by apply (titles_ok_label engines)|].
    apply df_columns_assign. right.
    apply write_links_columns. right. by exists e.
  - intros e col He Hcol Hunk Hne. apply link_field_Some in Hcol.
    exists (map (fun _ => VStr []) kws). split; [|apply empty_cells_Forall].
    rewrite df_lookup_assign, decide_False by done.
    apply write_links_unknown; [by apply Hunknown|]. right. by exists e.
  - apply df_columns_assign. by left.
  - intros p rest col Heng Hcol Hunk. rewrite Heng in Hhd. simpl in Hhd.
    injection Hhd as ->. apply link_field_Some in Hcol.
    exists cells. split; [by rewrite df_lookup_assign, decide_True|].
    rewrite Hcol in Hcells.
    rewrite write_links_unknown in Hcells.
    + injection Hcells as <-. apply empty_cells_Forall.
    + by apply Hunknown.
    + right. exists primary. split; [|done]. rewrite Heng. by left.
Qed.

Lemma process_dataframe_link_fields_witness :
  ∃ df' w',
    process_dataframe DEFAULT_CONFIG None None
      (Some ["bogus" : pystr; "wikipedia" : pystr]) (fresh two_records)
    = (Return df', w')
    ∧ ("Bogus_Link" : pystr) ∈ df_columns df'
    ∧ ("Wikipedia_Link" : pystr) ∈ df_columns df'
    ∧ Spec.field_is_empty df' "Bogus_Link"
    ∧ ("Search_Link" : pystr) ∈ df_columns df'
    ∧ Spec.field_is_empty df' "Search_Link".
Proof.
  destruct (process_dataframe_link_fields DEFAULT_CONFIG None None
              (Some ["bogus" : pystr; "wikipedia" : pystr]) (fresh two_records)
              "Artist" "Title")
    as (df' & w' & Hrun & _ & Hcols & Hempty & Hsearch & Hprimary).
  - exact default_templates_ok.
  - apply (bool_decide_unpack _). vm_compute. exact I.
  - split; [reflexivity|]. split; [discriminate|]. split; [discriminate|].
    split; apply (bool_decide_unpack _); vm_compute; exact I.
  - repeat constructor; eexists; reflexivity.
  - assert (Hunk : Spec.only_unknown_write DEFAULT_CONFIG
                     ["bogus" : pystr; "wikipedia" : pystr] "Bogus_Link").
    { intros e He Hf. apply elem_of_cons in He as [->|He]; [reflexivity|].
      apply list_elem_of_singleton in He as ->. discriminate Hf. }
    exists df', w'. split; [exact Hrun|].
    split.
    { destruct (Hcols "bogus") as (col & Hcol & Hin); [by left|].
      injection Hcol as <-. exact Hin. }
    split.
    { destruct (Hcols "wikipedia") as (col & Hcol & Hin); [right; by left|].
      injection Hcol as <-. exact Hin. }
    split; [apply (Hempty "bogus"); [by left|reflexivity|exact Hunk|discriminate]|].
    split; [exact Hsearch|].
    by apply (Hprimary "bogus" ["wikipedia" : pystr] "Bogus_Link").
Defined.

(** * Further properties of the keyword engine *)

Lemma clean_char_class c :
  clean_char c = true →
  (Py.isword c = true ∨ c = "-"%char ∨ c = " "%char)
  ∧ Py.lower_char c = c
  ∧ Re.is_open c = false ∧ Re.is_close c = false.
Proof.
  destruct c as [[] [] [] [] [] [] [] []]; vm_compute; intros H;
    first [discriminate H | repeat split; auto].
Qed.

Lemma strip_fixed_head t c r :
  Py.strip t = t → t = c :: r → Py.isspace c = false.
Proof.
  intros Hs Ht. unfold Py.strip in Hs.
  destruct (rstrip_prefix (Py.lstrip t)) as [b Hb].
  rewrite Hs, Ht in Hb. by apply lstrip_head in Hb.
Qed.

Lemma strip_fixed_last t r c :
  Py.strip t = t → t = r ++ [c] → Py.isspace c = false.
Proof.
  intros Hs Ht. unfold Py.strip in Hs. rewrite Ht in Hs at 2.
  by apply rstrip_last in Hs.
Qed.

(** X1.  The text returned by [clean_text] consists of word characters,
    hyphens and spaces only, each of them unchanged by lower-casing and
    none of them a bracket; it does not begin or end with a space, and
    has no two spaces in a row. *)
Theorem clean_text_alphabet (v : value) :
  Forall (fun c => (Py.isword c = true ∨ c = "-"%char ∨ c = " "%char)
                   ∧ Py.lower_char c = c
                   ∧ Re.is_open c = false ∧ Re.is_close c = false)
    (clean_text v)
  ∧ (∀ r, clean_text v ≠ " "%char :: r)
  ∧ (∀ r, clean_text v ≠ r ++ [" "%char])
  ∧ (∀ a b, clean_text v ≠ a ++ " "%char :: " "%char :: b).
Proof.
  destruct (clean_text_shape v) as (Hc & Hs & Hstrip).
  split; [|split; [|split]].
  - eapply Forall_impl; [exact Hc|]. intros c. apply clean_char_class.
  - intros r Hr. by pose proof (strip_fixed_head _ _ _ Hstrip Hr).
  - intros r Hr. by pose proof (strip_fixed_last _ _ _ Hstrip Hr).
  - intros a b Hab. rewrite Hab in Hs.
    apply single_spaced_app in Hs as [_ Hs]. discriminate Hs.
Qed.

(** Every character of a token of [s] is a character of [s]. *)
Lemma split_go_Forall (P : ascii → Prop) s :
  Forall P s →
  Forall P (Py.split_go s).1 ∧ Forall (Forall P) (Py.split_go s).2.
Proof.
  induction 1 as [|c r Hc Hr [IH1 IH2]]; simpl; [by split|].
  destruct (Py.split_go r) as [w ws]. simpl in *.
  destruct (Py.isspace c); simpl.
  - split; [constructor|]. destruct w; simpl; [done|by constructor].
  - split; [by constructor|done].
Qed.

Lemma split_Forall (P : ascii → Prop) s :
  Forall P s → Forall (Forall P) (Py.split s).
Proof.
  intros H. unfold Py.split.
  destruct (split_go_Forall P s H) as [H1 H2].
  destruct (Py.split_go s) as [w ws]. simpl in *.
  destruct w; simpl; [done|by constructor].
Qed.

Lemma field_words_elem cfg clean w :
  w ∈ field_words cfg clean →
  (w ∉ self_stopwords cfg) ∧ (1 < length w) ∧ (w ∈ Py.split clean).
Proof.
  rewrite field_words_filter, list_elem_of_filter.
  intros [[Hs Hl] Hw%first_seen_subset]. done.
Qed.

(** The words of the combined list come from the two fields. *)
Lemma combine_words_elem max_words artist_words title_words w :
  w ∈ combine_words max_words artist_words title_words →
  w ∈ artist_words ∨ w ∈ title_words.
Proof.
  rewrite combine_words_compose.
  destruct (compose_shape (Z.to_nat max_words) artist_words title_words)
    as (added & -> & Hsub & _ & _).
  rewrite elem_of_app. intros [Hw|Hw].
  - left. eapply elem_of_sublist; [done|apply sublist_take].
  - right. by eapply elem_of_sublist.
Qed.

Lemma keyword_token_field cfg artist title max_words token :
  token ∈ Py.split (generate_keywords cfg artist title max_words) →
  token ∈ field_words cfg (clean_text artist)
  ∨ token ∈ field_words cfg (clean_text title).
Proof.
  rewrite split_generate_keywords. intros [H|H]%combine_words_elem.
  - left. eapply elem_of_sublist; [done|apply drop_various_sublist].
  - by right.
Qed.

(** X2.  No keyword is a stopword (whatever the letter case of the
    configured stopword), every keyword is longer than one character,
    and every keyword consists of word characters and hyphens only. *)
Theorem keywords_are_admissible cfg artist title max_words token :
  token ∈ Py.split (generate_keywords cfg artist title max_words) →
  (∀ s, s ∈ stopwords cfg → token ≠ Py.lower s)
  ∧ 1 < length token
  ∧ Forall (fun c => Py.isword c = true ∨ c = "-"%char) token.
Proof.
  intros Htok.
  assert (∃ v, token ∈ field_words cfg (clean_text v)) as [v Hv].
  { apply keyword_token_field in Htok as [?|?]; eauto. }
  apply field_words_elem in Hv as (Hstop & Hlen & Hsplit).
  split; [|split; [done|]].
  - intros s Hs ->. apply Hstop. unfold self_stopwords.
    apply elem_of_list_to_set, list_elem_of_fmap. by exists s.
  - destruct (clean_text_shape v) as (Hc & _ & _).
    pose proof (split_Forall _ _ Hc) as Hchars.
    pose proof (split_tokens (clean_text v)) as Htoks.
    rewrite Forall_forall in Hchars, Htoks.
    specialize (Hchars _ Hsplit). destruct (Htoks _ Hsplit) as [_ Hns].
    apply Forall_forall. intros c Hc'.
    rewrite Forall_forall in Hchars, Hns.
    specialize (Hchars _ Hc'). specialize (Hns _ Hc').
    destruct (clean_char_class c Hchars) as ([?|[?| ->]] & _); [by left|by right|].
    discriminate Hns.
Qed.

Lemma keywords_are_admissible_witness :
  (∀ s, s ∈ stopwords DEFAULT_CONFIG → ("beatles" : pystr) ≠ Py.lower s)
  ∧ 1 < length ("beatles" : pystr)
  ∧ Forall (fun c => Py.isword c = true ∨ c = "-"%char) ("beatles" : pystr).
Proof.
  apply (keywords_are_admissible DEFAULT_CONFIG (VStr "The Beatles")
           (VStr "Abbey Road") (Some 5%Z)).
  apply (bool_decide_unpack _). vm_compute. exact I.
Defined.

Lemma lower_eq_nil s s' : Py.lower s = Py.lower s' → (s = [] ↔ s' = []).
Proof. destruct s, s'; simpl; intros H; try discriminate; done. Qed.

(** X3.  The keywords do not depend on the letter case of the artist
    and of the title. *)
Theorem generate_keywords_ignores_case cfg a a' t t' max_words :
  Py.lower a = Py.lower a' → Py.lower t = Py.lower t' →
  generate_keywords cfg (VStr a) (VStr t) max_words
  = generate_keywords cfg (VStr a') (VStr t') max_words.
Proof.
  intros Ha Ht.
  assert (Hclean : ∀ s s', Py.lower s = Py.lower s' →
                           clean_text (VStr s) = clean_text (VStr s')).
  { intros s s' H. unfold clean_text. simpl.
    pose proof (lower_eq_nil s s' H) as Hnil.
    repeat case_bool_decide; try tauto; try done. by rewrite H. }
  unfold generate_keywords, artist_words_of, title_words_of.
  by rewrite (Hclean a a' Ha), (Hclean t t' Ht).
Qed.

Lemma generate_keywords_ignores_case_witness :
  generate_keywords DEFAULT_CONFIG (VStr "PINK FLOYD") (VStr "The Wall") (Some 5%Z)
  = generate_keywords DEFAULT_CONFIG (VStr "Pink Floyd") (VStr "THE WALL") (Some 5%Z).
Proof.
  apply (generate_keywords_ignores_case DEFAULT_CONFIG "PINK FLOYD" "Pink Floyd"
           "The Wall" "THE WALL" (Some 5%Z)); reflexivity.
Defined.

(** Cleaned text is a fixed point of [clean_text]. *)
Lemma clean_text_fixed v : clean_text (VStr (clean_text v)) = clean_text v.
Proof.
  destruct (clean_text_shape v) as (Hc & Hs & Hstrip).
  set (t := clean_text v) in *. unfold clean_text at 1. simpl.
  case_bool_decide as Ht; [done|].
  rewrite lower_clean, sub_brackets_clean, sub_special_clean by done.
  unfold Re.sub_spaces. by rewrite sub_spaces_clean.
Qed.

(** X4.  Cleaning the artist and the title before the call does not
    change the keywords. *)
Theorem generate_keywords_on_cleaned cfg artist title max_words :
  generate_keywords cfg (VStr (clean_text artist)) (VStr (clean_text title))
    max_words
  = generate_keywords cfg artist title max_words.
Proof.
  unfold generate_keywords, artist_words_of, title_words_of.
  by rewrite !clean_text_fixed.
Qed.

Lemma filter_ext_elem (P Q : pystr → Prop) `{!∀ x, Decision (P x)}
    `{!∀ x, Decision (Q x)} (l : list pystr) :
  (∀ x, x ∈ l → (P x ↔ Q x)) → filter P l = filter Q l.
Proof.
  induction l as [|x r IH]; intros Hiff; [done|].
  rewrite !filter_cons.
  rewrite IH by (intros y Hy; apply Hiff; by right).
  assert (Hx : P x ↔ Q x) by (apply Hiff; by left).
  destruct (decide (P x)), (decide (Q x)); tauto || done.
Qed.

Lemma fill_closed title_tokens slots combined :
  NoDup title_tokens →
  Spec.fill title_tokens slots combined
  = combined ++ take slots (filter (fun w => w ∉ combined) title_tokens).
Proof.
  intros Hnd. revert slots combined.
  induction Hnd as [|x r Hx Hr IH]; intros slots c; simpl.
  - rewrite filter_nil, take_nil. by rewrite app_nil_r.
  - destruct slots as [|k]; [by rewrite take_0, app_nil_r|].
    case_bool_decide as Hc.
    + rewrite IH. by rewrite filter_cons_False by tauto.
    + rewrite IH, filter_cons_True by done. simpl.
      rewrite <- app_assoc. simpl. do 3 f_equal.
      apply filter_ext_elem. intros y Hy.
      rewrite elem_of_app, list_elem_of_singleton.
      split; [tauto|]. intros Hyc [?| ->]; done.
Qed.

Lemma title_words_NoDup cfg title : NoDup (title_words_of cfg title).
Proof.
  eapply sublist_NoDup;
    [apply first_seen_NoDup | apply title_words_first_seen].
Qed.

Lemma compose_closed n artist_tokens title_tokens :
  NoDup title_tokens →
  Spec.compose n artist_tokens title_tokens
  = take n (take 2 artist_tokens
            ++ filter (fun w => w ∉ take 2 artist_tokens) title_tokens).
Proof.
  intros Hnd. unfold Spec.compose, Spec.artist_part.
  rewrite fill_closed by done.
  destruct (decide (2 ≤ n)) as [Hn|Hn].
  - rewrite Nat.min_l by done. rewrite take_app.
    rewrite (take_ge (take 2 artist_tokens)) by (rewrite length_take; lia).
    done.
  - rewrite Nat.min_r by lia.
    destruct n as [|[|n]]; [by rewrite !take_0|clear Hn|lia].
    destruct artist_tokens as [|a1 r]; simpl; [done|].
    by rewrite take_0.
Qed.

(** X5.  The keywords are the first [max_words] entries (the limit in
    force) of the list made of the first two artist words followed by
    the title words that are not among these two. *)
Theorem keywords_closed_form cfg artist title max_words :
  Py.split (generate_keywords cfg artist title max_words)
  = take (Z.to_nat (or_max_keywords max_words cfg))
      (take 2 (artist_words_of cfg artist)
       ++ filter (fun w => w ∉ take 2 (artist_words_of cfg artist))
            (title_words_of cfg title)).
Proof.
  rewrite split_generate_keywords, combine_words_compose.
  apply compose_closed, title_words_NoDup.
Qed.

(** X6.  A larger positive [max_words] only appends keywords: the
    keyword list for [m] is a prefix of the one for [m' ≥ m]. *)
Theorem keywords_grow_with_max_words cfg artist title (m m' : Z) :
  (0 < m)%Z → (m ≤ m')%Z →
  Py.split (generate_keywords cfg artist title (Some m))
  `prefix_of` Py.split (generate_keywords cfg artist title (Some m')).
Proof.
  intros Hm Hmm'.
  rewrite !split_generate_keywords, !combine_words_compose.
  rewrite !compose_closed by apply title_words_NoDup.
  unfold or_max_keywords.
  destruct (Z.eqb_spec m 0) as [?|_]; [lia|].
  destruct (Z.eqb_spec m' 0) as [?|_]; [lia|].
  set (l := _ ++ _).
  replace (Z.to_nat m') with (Z.to_nat m + (Z.to_nat m' - Z.to_nat m)) by lia.
  rewrite <- take_take_drop. by eexists.
Qed.

Lemma keywords_grow_with_max_words_witness :
  Py.split (generate_keywords DEFAULT_CONFIG (VStr "Pink Floyd")
              (VStr "The Dark Side of the Moon") (Some 2%Z))
  `prefix_of`
  Py.split (generate_keywords DEFAULT_CONFIG (VStr "Pink Floyd")
              (VStr "The Dark Side of the Moon") (Some 4%Z)).
Proof.
  apply (keywords_grow_with_max_words DEFAULT_CONFIG (VStr "Pink Floyd")
           (VStr "The Dark Side of the Moon") 2%Z 4%Z); lia.
Defined.


(** * Further properties of the record pipeline *)

Lemma df_assign_columns_prefix df c cells :
  df_columns df `prefix_of` df_columns (df_assign df c cells).
Proof.
  unfold df_columns. induction df as [|[d old] rest IH]; simpl.
  - apply prefix_nil.
  - destruct (decide (d = c)) as [->|_]; simpl; [done|].
    by apply prefix_cons.
Qed.

Lemma write_links_columns_prefix cfg kws df engines :
  df_columns df `prefix_of` df_columns (write_links cfg kws df engines).
Proof.
  revert df. induction engines as [|e rest IH]; intros df;
    cbn [write_links fold_left]; [done|].
  etrans; [apply df_assign_columns_prefix|]. apply IH.
Qed.

Lemma write_links_other cfg kws df engines c :
  (∀ e, e ∈ engines → link_label e ≠ c) →
  df_lookup (write_links cfg kws df engines) c = df_lookup df c.
Proof.
  revert df. induction engines as [|e rest IH]; intros df Hc;
    cbn [write_links fold_left]; [done|].
  unfold write_links in IH. rewrite IH.
  - rewrite df_lookup_assign, decide_False; [done|]. apply Hc. by left.
  - intros x Hx. apply Hc. by right.
Qed.

Lemma write_links_app cfg kws df l1 l2 :
  write_links cfg kws df (l1 ++ l2)
  = write_links cfg kws (write_links cfg kws df l1) l2.
Proof. unfold write_links. apply fold_left_app. Qed.

(** The field of an engine holds the links of the last requested engine
    that writes to it. *)
Lemma write_links_last cfg kws df before e after :
  (∀ x, x ∈ after → link_label x ≠ link_label e) →
  df_lookup (write_links cfg kws df (before ++ e :: after)) (link_label e)
  = Some (link_cells cfg e kws).
Proof.
  intros Hafter. rewrite write_links_app.
  change (write_links cfg kws (write_links cfg kws df before) (e :: after))
    with (write_links cfg kws
            (df_assign (write_links cfg kws df before) (link_label e)
               (link_cells cfg e kws)) after).
  rewrite write_links_other by done.
  by rewrite df_lookup_assign, decide_True.
Qed.

Lemma search_link_not_keywords : ("Search_Link" : pystr) ≠ "Keywords".
Proof. discriminate. Qed.

Lemma two_records_distinct : NoDup (df_columns (frame (fresh two_records))).
Proof. apply (bool_decide_unpack _). vm_compute. exact I. Defined.

Lemma default_resolved_two_records :
  Spec.resolved DEFAULT_CONFIG (frame (fresh two_records)) None None
    "Artist" "Title".
Proof.
  split; [reflexivity|]. split; [discriminate|]. split; [discriminate|].
  split; apply (bool_decide_unpack _); vm_compute; exact I.
Defined.

Lemma default_titles_ok : Spec.titles_ok (engines_or_default DEFAULT_CONFIG None).
Proof. repeat constructor; eexists; reflexivity. Defined.

Lemma spotify_youtube_titles_ok :
  Spec.titles_ok
    (engines_or_default DEFAULT_CONFIG
       (Some ["spotify" : pystr; "youtube" : pystr])).
Proof. repeat constructor; eexists; reflexivity. Defined.

(** A label that is the link field of no engine is not written by the
    loop over the engines. *)
Lemma titles_ok_other engines (c : pystr) :
  Spec.titles_ok engines →
  (∀ e, e ∈ engines → Spec.link_field e ≠ Some c) →
  ∀ e, e ∈ engines → link_label e ≠ c.
Proof.
  intros Htitles Hc e He Heq. apply (Hc e He).
  by rewrite (titles_ok_label engines e Htitles He), Heq.
Qed.

(** X7.  On a frame with distinct labels and resolved columns, for
    engines whose title-cased identifiers stay within U+00FF,
    [process_dataframe] returns the frame with the fields it had, in
    their places, followed by the new ones; an existing field keeps its
    cells unless it is named [Keywords], [Search_Link] or like the link
    field of a requested engine. *)
Theorem process_dataframe_keeps_fields cfg artist_col title_col requested
    w a t :
  Spec.templates_ok cfg →
  NoDup (df_columns (frame w)) →
  Spec.resolved cfg (frame w) artist_col title_col a t →
  Spec.titles_ok (engines_or_default cfg requested) →
  ∃ df' w',
    process_dataframe cfg artist_col title_col requested w = (Return df', w')
    ∧ df_columns (frame w) `prefix_of` df_columns df'
    ∧ (∀ c : pystr, c ≠ "Keywords" → c ≠ "Search_Link" →
            (∀ e, e ∈ engines_or_default cfg requested →
                  Spec.link_field e ≠ Some c) →
            df_lookup df' c = df_lookup (frame w) c).
Proof.
  intros Hok _ Hres Htitles.
  destruct (process_dataframe_run cfg artist_col title_col requested
              w a t Hok Htitles Hres)
    as (artists & titles & primary & cells & logs & _ & _ & _ & H).
  cbv zeta in H. destruct H as [_ Hrun].
  eexists _, _. split; [exact Hrun|]. split.
  - etrans; [|apply df_assign_columns_prefix].
    etrans; [|apply write_links_columns_prefix].
    apply df_assign_columns_prefix.
  - intros c Hk Hs Hl.
    rewrite df_lookup_assign, decide_False by (intros <-; done).
    rewrite write_links_other by (by apply titles_ok_other).
    by rewrite df_lookup_assign, decide_False by (intros <-; done).
Qed.

Lemma process_dataframe_keeps_fields_witness :
  ∃ df' w',
    process_dataframe DEFAULT_CONFIG None None None (fresh two_records)
    = (Return df', w')
    ∧ df_columns (frame (fresh two_records)) `prefix_of` df_columns df'
    ∧ (∀ c : pystr, c ≠ "Keywords" → c ≠ "Search_Link" →
            (∀ e, e ∈ engines_or_default DEFAULT_CONFIG None →
                  Spec.link_field e ≠ Some c) →
            df_lookup df' c = df_lookup (frame (fresh two_records)) c).
Proof.
  apply (process_dataframe_keeps_fields DEFAULT_CONFIG None None None
           (fresh two_records) "Artist" "Title").
  - exact default_templates_ok.
  - exact two_records_distinct.
  - exact default_resolved_two_records.
  - exact default_titles_ok.
Defined.

(** X8.  On a frame with distinct labels, for engines whose title-cased
    identifiers stay within U+00FF, the field [Keywords] of the result
    holds, row by row and in the order of the rows, the keywords of the
    artist and title cells of that row, computed with the configured
    [max_keywords]. *)
Theorem process_dataframe_keywords_by_row cfg artist_col title_col
    requested w a t :
  Spec.templates_ok cfg →
  NoDup (df_columns (frame w)) →
  Spec.resolved cfg (frame w) artist_col title_col a t →
  Spec.titles_ok (engines_or_default cfg requested) →
  ∃ df' w' artists titles,
    process_dataframe cfg artist_col title_col requested w = (Return df', w')
    ∧ df_lookup (frame w) a = Some artists
    ∧ df_lookup (frame w) t = Some titles
    ∧ df_lookup df' "Keywords"
      = Some (zip_with
                (fun artist title => VStr (generate_keywords cfg artist title None))
                artists titles).
Proof.
  intros Hok _ Hres Htitles.
  destruct (process_dataframe_run cfg artist_col title_col requested
              w a t Hok Htitles Hres)
    as (artists & titles & primary & cells & logs & Ha & Ht & _ & H).
  cbv zeta in H. destruct H as [_ Hrun].
  eexists _, _, artists, titles. split; [exact Hrun|].
  split; [done|]. split; [done|].
  rewrite df_lookup_assign, decide_False by apply search_link_not_keywords.
  rewrite write_links_other by (intros e _; apply link_label_not_keywords).
  rewrite df_lookup_assign, decide_True by done.
  by rewrite zip_with_VStr.
Qed.

Lemma process_dataframe_keywords_by_row_witness :
  ∃ df' w' artists titles,
    process_dataframe DEFAULT_CONFIG None None None (fresh two_records)
    = (Return df', w')
    ∧ df_lookup (frame (fresh two_records)) "Artist" = Some artists
    ∧ df_lookup (frame (fresh two_records)) "Title" = Some titles
    ∧ df_lookup df' "Keywords"
      = Some (zip_with
                (fun artist title =>
                   VStr (generate_keywords DEFAULT_CONFIG artist title None))
                artists titles).
Proof.
  apply (process_dataframe_keywords_by_row DEFAULT_CONFIG None None None
           (fresh two_records) "Artist" "Title").
  - exact default_templates_ok.
  - exact two_records_distinct.
  - exact default_resolved_two_records.
  - exact default_titles_ok.
Defined.

(** X9.  [Search_Link] is a copy of the link field of the first
    requested engine, the field named by the title-cased identifier of
    that engine followed by [_Link]: on a frame with distinct labels,
    for engines whose title-cased identifiers stay within U+00FF, both
    fields hold the same cells in the result. *)
Theorem search_link_copies_primary cfg artist_col title_col requested
    w a t :
  Spec.templates_ok cfg →
  NoDup (df_columns (frame w)) →
  Spec.resolved cfg (frame w) artist_col title_col a t →
  Spec.titles_ok (engines_or_default cfg requested) →
  ∃ df' w' primary rest titled cells,
    process_dataframe cfg artist_col title_col requested w = (Return df', w')
    ∧ engines_or_default cfg requested = primary :: rest
    ∧ Py.title primary = Some titled
    ∧ df_lookup df' "Search_Link" = Some cells
    ∧ df_lookup df' (titled ++ "_Link") = Some cells.
Proof.
  intros Hok _ Hres Htitles.
  destruct (process_dataframe_run cfg artist_col title_col requested
              w a t Hok Htitles Hres)
    as (artists & titles & primary & cells & logs & _ & _ & Hhd & H).
  cbv zeta in H. destruct H as [Hcells Hrun].
  destruct (engines_or_default_cons cfg requested) as (p & rest & Heng).
  rewrite Heng in Hhd. injection Hhd as ->. rewrite Heng in Htitles.
  destruct (link_field_label primary (Forall_inv Htitles))
    as (titled & Htitled & Hlabel & _).
  rewrite Hlabel in Hcells.
  eexists _, _, primary, rest, titled, cells.
  split; [exact Hrun|]. split; [done|]. split; [done|].
  rewrite !df_lookup_assign. rewrite decide_True by done. split; [done|].
  by case_decide.
Qed.

Lemma search_link_copies_primary_witness :
  ∃ df' w' primary rest titled cells,
    process_dataframe DEFAULT_CONFIG None None
      (Some ["spotify" : pystr; "youtube" : pystr]) (fresh two_records)
    = (Return df', w')
    ∧ engines_or_default DEFAULT_CONFIG
        (Some ["spotify" : pystr; "youtube" : pystr]) = primary :: rest
    ∧ Py.title primary = Some titled
    ∧ df_lookup df' "Search_Link" = Some cells
    ∧ df_lookup df' (titled ++ "_Link") = Some cells.
Proof.
  apply (search_link_copies_primary DEFAULT_CONFIG None None
           (Some ["spotify" : pystr; "youtube" : pystr])
           (fresh two_records) "Artist" "Title").
  - exact default_templates_ok.
  - exact two_records_distinct.
  - exact default_resolved_two_records.
  - exact spotify_youtube_titles_ok.
Defined.

(** X10.  On a frame with distinct labels, for engines whose
    title-cased identifiers stay within U+00FF, the link field of a
    requested engine that the registry knows holds, for every row, the
    engine's template filled with the quoted keywords of that row,
    provided no engine requested after it writes to the same field and
    the field is not [Search_Link]. *)
Theorem link_field_holds_links cfg artist_col title_col requested
    w a t before e after col template :
  Spec.templates_ok cfg →
  NoDup (df_columns (frame w)) →
  Spec.resolved cfg (frame w) artist_col title_col a t →
  engines_or_default cfg requested = before ++ e :: after →
  Spec.titles_ok (before ++ e :: after) →
  Spec.link_field e = Some col →
  (∀ x, x ∈ after → Spec.link_field x ≠ Some col) →
  col ≠ "Search_Link" →
  search_engines cfg !! e = Some template →
  ∃ df' w' kws,
    process_dataframe cfg artist_col title_col requested w = (Return df', w')
    ∧ df_lookup df' "Keywords" = Some (map VStr kws)
    ∧ df_lookup df' col
      = Some (map (fun kw => VStr (default [] (Lib.format template
                                                 (Lib.quote_plus kw)))) kws)
    ∧ (∀ kw, is_Some (Lib.format template (Lib.quote_plus kw))).
Proof.
  intros Hok _ Hres Heng Htitles Hcol Hafter Hne He.
  assert (Hall : Spec.titles_ok (engines_or_default cfg requested))
    by (by rewrite Heng).
  destruct (process_dataframe_run cfg artist_col title_col requested
              w a t Hok Hall Hres)
    as (artists & titles & primary & cells & logs & _ & _ & _ & H).
  cbv zeta in H. destruct H as [_ Hrun].
  apply link_field_Some in Hcol as Hlabel.
  assert (Hafter' : ∀ x, x ∈ after → link_label x ≠ link_label e).
  { intros x Hx Heq. apply (Hafter x Hx).
    rewrite (titles_ok_label _ x Htitles), Heq, Hlabel; [done|].
    apply elem_of_app. right. by right. }
  eexists _, _, (keyword_texts cfg artists titles).
  split; [exact Hrun|]. split; [|split].
  - rewrite df_lookup_assign, decide_False by apply search_link_not_keywords.
    rewrite write_links_other by (intros x _; apply link_label_not_keywords).
    by rewrite df_lookup_assign, decide_True.
  - rewrite <- Hlabel.
    rewrite df_lookup_assign, decide_False
      by (intros Heq; apply Hne; by rewrite <- Hlabel, Heq).
    rewrite Heng, write_links_last by done.
    unfold link_cells, link_text. by rewrite He.
  - intros kw. destruct (format_ok cfg e template (Lib.quote_plus kw) Hok He)
      as [url ->]. by eexists.
Qed.

Lemma link_field_holds_links_witness :
  ∃ df' w' kws,
    process_dataframe DEFAULT_CONFIG None None
      (Some ["spotify" : pystr; "youtube" : pystr]) (fresh two_records)
    = (Return df', w')
    ∧ df_lookup df' "Keywords" = Some (map VStr kws)
    ∧ df_lookup df' "Spotify_Link"
      = Some (map (fun kw =>
                     VStr (default []
                             (Lib.format "https://open.spotify.com/search/{query}"
                                (Lib.quote_plus kw)))) kws)
    ∧ (∀ kw, is_Some (Lib.format "https://open.spotify.com/search/{query}"
                        (Lib.quote_plus kw))).
Proof.
  apply (link_field_holds_links DEFAULT_CONFIG None None
           (Some ["spotify" : pystr; "youtube" : pystr])
           (fresh two_records) "Artist" "Title" [] "spotify"
           ["youtube" : pystr]).
  - exact default_templates_ok.
  - exact two_records_distinct.
  - exact default_resolved_two_records.
  - reflexivity.
  - exact spotify_youtube_titles_ok.
  - reflexivity.
  - intros x Hx. apply list_elem_of_singleton in Hx as ->. discriminate.
  - discriminate.
  - reflexivity.
Defined.

(** * The HTML report *)

Lemma add_navigation_other_page page_num ps html :
  (∃ p, p ∈ ps ∧ p ≠ page_num) →
  add_navigation page_num ps html = inl (NameError "output_path").
Proof.
  revert html. induction ps as [|q rest IH]; intros html (p & Hp & Hne).
  - by apply elem_of_nil in Hp.
  - cbn [add_navigation]. destruct (Z.eqb_spec q page_num) as [->|Hq]; [|done].
    apply IH. exists p. split; [|done].
    apply elem_of_cons in Hp as [->|Hp]; done.
Qed.

Lemma other_page_exists page_num total_pages :
  (1 < total_pages)%Z → ∃ p, p ∈ seqZ 1 total_pages ∧ p ≠ page_num.
Proof.
  intros H. destruct (decide (page_num = 1%Z)) as [->|Hne].
  - exists 2%Z. rewrite elem_of_seqZ. lia.
  - exists 1%Z. rewrite elem_of_seqZ. split; [lia|done].
Qed.

(** X11.  A page of a report with more than one page cannot be
    rendered: whatever the frame and the page number, the navigation
    reaches a page other than the current one and [generate_page_html]
    raises [NameError] for [output_path]. *)
Theorem page_html_fails_when_several_pages env df page_num total_pages config :
  (1 < total_pages)%Z →
  generate_page_html env df page_num total_pages config
  = inl (NameError "output_path").
Proof.
  intros H. unfold generate_page_html.
  apply Z.ltb_lt in H as Hb. rewrite Hb.
  by rewrite add_navigation_other_page by by apply other_page_exists.
Qed.

Lemma page_html_fails_when_several_pages_witness :
  generate_page_html sample_env two_records 1 2 DEFAULT_CONFIG
  = inl (NameError "output_path").
Proof.
  apply (page_html_fails_when_several_pages sample_env two_records 1 2
           DEFAULT_CONFIG).
  lia.
Defined.

(** The text appended for the link columns of one row. *)
Lemma fold_add_link_button row cols html :
  fold_left (add_link_button row) cols html
  = html ++ fold_left (add_link_button row) cols [].
Proof.
  revert html. induction cols as [|c rest IH]; intros html; simpl.
  - by rewrite app_nil_r.
  - rewrite IH, (IH (add_link_button row [] c)).
    unfold add_link_button. destruct (is_link _); [|done].
    by rewrite <- app_assoc.
Qed.

Lemma add_card_app artist_col title_col columns html row :
  add_card artist_col title_col columns html row
  = html ++ add_card artist_col title_col columns [] row.
Proof.
  unfold add_card. cbv zeta.
  rewrite fold_add_link_button.
  rewrite (fold_add_link_button _ _ ([] ++ _)).
  by rewrite <- !app_assoc.
Qed.

Lemma fold_add_card artist_col title_col columns rows html :
  fold_left (add_card artist_col title_col columns) rows html
  = html ++ concat (map (add_card artist_col title_col columns []) rows).
Proof.
  revert html. induction rows as [|row rest IH]; intros html; simpl.
  - by rewrite app_nil_r.
  - rewrite IH, add_card_app. by rewrite <- app_assoc.
Qed.

(** X12.  With at most one page, [generate_page_html] returns for
    every frame with distinct labels and cells that are strings or
    [NaN]: the page is its opening text, the grid, one card for each
    row in the order of the rows, each card depending on its own row
    only, and the closing text; there is no navigation. *)
Theorem page_html_single_page env df page_num total_pages config :
  well_formed df →
  (total_pages ≤ 1)%Z →
  generate_page_html env df page_num total_pages config
  = inr (page_head env page_num total_pages (df_len df)
         ++ Html.grid_open
         ++ concat (map (add_card
                           (first_column (df_columns df) (artist_columns config))
                           (first_column (df_columns df) (title_columns config))
                           (df_columns df) [])
                      (df_rows df))
         ++ Html.page_close).
Proof.
  intros _ H. unfold generate_page_html.
  assert ((1 <? total_pages)%Z = false) as -> by by apply Z.ltb_ge.
  rewrite fold_add_card. by rewrite <- !app_assoc.
Qed.

Lemma two_records_well_formed : well_formed two_records.
Proof.
  split; [apply (bool_decide_unpack _); vm_compute; exact I|].
  split; repeat constructor; discriminate.
Defined.

Lemma page_html_single_page_witness :
  generate_page_html sample_env two_records 1 1 DEFAULT_CONFIG
  = inr (page_head sample_env 1 1 (df_len two_records)
         ++ Html.grid_open
         ++ concat (map (add_card
                           (first_column (df_columns two_records)
                              (artist_columns DEFAULT_CONFIG))
                           (first_column (df_columns two_records)
                              (title_columns DEFAULT_CONFIG))
                           (df_columns two_records) [])
                      (df_rows two_records))
         ++ Html.page_close).
Proof.
  apply (page_html_single_page sample_env two_records 1 1 DEFAULT_CONFIG).
  - exact two_records_well_formed.
  - lia.
Defined.

(** ** Pages of the report *)

Lemma total_pages_bounds (n k : Z) :
  (0 < k)%Z →
  (k * ((n + k - 1) / k) - k < n ≤ k * ((n + k - 1) / k))%Z.
Proof.
  intros Hk.
  pose proof (Z.mul_div_le (n + k - 1) k Hk).
  pose proof (Z.mul_succ_div_gt (n + k - 1) k Hk).
  lia.
Qed.

Lemma py_slice_inner {A} (l : list A) (s e : Z) :
  (0 ≤ s ≤ e)%Z → (e ≤ Z.of_nat (length l))%Z →
  py_slice s e l = take (Z.to_nat e - Z.to_nat s) (drop (Z.to_nat s) l).
Proof.
  intros Hs He. unfold py_slice.
  assert ((s <? 0)%Z = false) as -> by lia.
  assert ((e <? 0)%Z = false) as -> by lia.
  rewrite !Z.min_l by lia. f_equal. lia.
Qed.

(** The slices of the first [m] pages make up the first [m] times
    [items_per_page] rows. *)
Lemma page_slices_take {A} (l : list A) (k : Z) (m : nat) :
  (0 < k)%Z →
  (Z.of_nat m ≤ (Z.of_nat (length l) + k - 1) / k)%Z →
  concat (map (fun page =>
                 py_slice (page_bounds k (Z.of_nat (length l)) page).1
                   (page_bounds k (Z.of_nat (length l)) page).2 l)
            (seqZ 0 (Z.of_nat m)))
  = take (Z.to_nat (Z.min (Z.of_nat m * k) (Z.of_nat (length l)))) l.
Proof.
  intros Hk. set (n := Z.of_nat (length l)).
  pose proof (total_pages_bounds n k Hk) as Hb.
  induction m as [|m IH]; intros Hm.
  - change (Z.of_nat 0) with 0%Z. rewrite seqZ_nil by lia. simpl.
    by rewrite Z.min_l by lia.
  - rewrite seqZ_S, map_app, concat_app, IH by lia. simpl.
    rewrite app_nil_r. unfold page_bounds. simpl.
    rewrite py_slice_inner by (fold n; nia).
    rewrite Z.min_l by nia.
    rewrite take_take_drop. f_equal. nia.
Qed.

(** X13.  For a positive [items_per_page] the page slices computed by
    [generate_html_report] cut the rows into consecutive pieces: put
    together in order they give back all rows, and every page holds at
    least one and at most [items_per_page] rows. *)
Theorem page_slices_tile {A} (l : list A) (items_per_page : Z) :
  (0 < items_per_page)%Z →
  let total_items := Z.of_nat (length l) in
  let total_pages := ((total_items + items_per_page - 1) / items_per_page)%Z in
  let slice page :=
    py_slice (page_bounds items_per_page total_items page).1
      (page_bounds items_per_page total_items page).2 l in
  concat (map slice (seqZ 0 total_pages)) = l
  ∧ Forall (fun page => (0 < Z.of_nat (length (slice page)) ≤ items_per_page)%Z)
      (seqZ 0 total_pages).
Proof.
  intros Hk. cbv zeta.
  pose proof (total_pages_bounds (Z.of_nat (length l)) items_per_page Hk) as Hb.
  set (P := ((Z.of_nat (length l) + items_per_page - 1) / items_per_page)%Z) in *.
  assert (HP : (0 ≤ P)%Z) by nia.
  split.
  - rewrite <- (Z2Nat.id P HP).
    rewrite page_slices_take by (fold P; lia).
    rewrite Z2Nat.id by done. rewrite Z.min_r by lia.
    rewrite Nat2Z.id. apply take_ge. lia.
  - apply Forall_seqZ. intros page Hpage. unfold page_bounds. simpl.
    rewrite py_slice_inner by nia.
    rewrite length_take, length_drop. nia.
Qed.

Lemma page_slices_tile_witness :
  let l := [1; 2; 3; 4; 5; 6; 7] in
  let slice page :=
    py_slice (page_bounds 3 7 page).1 (page_bounds 3 7 page).2 l in
  concat (map slice (seqZ 0 ((7 + 3 - 1) / 3))) = l
  ∧ Forall (fun page => (0 < Z.of_nat (length (slice page)) ≤ 3)%Z)
      (seqZ 0 ((7 + 3 - 1) / 3)).
Proof.
  apply (page_slices_tile [1; 2; 3; 4; 5; 6; 7] 3%Z). lia.
Defined.

(** ** [generate_html_report] *)

Lemma df_iloc_columns (n : nat) (df : DataFrame) :
  Forall (fun col => length col.2 = n) df → df_iloc df 0 (Z.of_nat n) = df.
Proof.
  unfold df_iloc. induction 1 as [|[c cells] rest Hc Hrest IH]; [done|].
  cbn [map]. f_equal; [|exact IH]. f_equal. simpl in Hc.
  rewrite py_slice_inner by lia.
  simpl. rewrite Nat.sub_0_r, Nat2Z.id. apply take_ge. lia.
Qed.

Lemma df_iloc_all df (n : Z) :
  rectangular df → n = Z.of_nat (df_len df) → df_iloc df 0 n = df.
Proof. intros Hrect ->. by apply df_iloc_columns. Qed.

(** X14.  When the frame has more rows than [items_per_page] (taken
    positive), [generate_html_report] makes the output directory and then
    raises [NameError] while rendering the first page: no file is
    written and nothing is logged. *)
Theorem report_fails_when_several_pages env df output_dir base_name
    items_per_page config fs :
  (0 < items_per_page)%Z →
  (items_per_page < Z.of_nat (df_len df))%Z →
  generate_html_report env df output_dir base_name items_per_page config fs
  = (Some (NameError "output_path"),
     {| made_dirs := made_dirs fs ++ [output_dir];
        written := written fs;
        report_log := report_log fs |}).
Proof.
  intros Hk Hn. unfold generate_html_report.
  assert ((items_per_page =? 0)%Z = false) as -> by lia.
  pose proof (total_pages_bounds (Z.of_nat (df_len df)) items_per_page Hk) as Hb.
  set (P := ((Z.of_nat (df_len df) + items_per_page - 1) / items_per_page)%Z) in *.
  assert (HP : (1 < P)%Z) by nia.
  rewrite seqZ_cons by lia. cbn [write_pages].
  destruct (page_bounds _ _ _) as [start_idx end_idx].
  unfold generate_page_html.
  apply Z.ltb_lt in HP as Hb'. rewrite Hb'.
  by rewrite add_navigation_other_page by by apply other_page_exists.
Qed.

Lemma report_fails_when_several_pages_witness :
  generate_html_report sample_env three_rows "out" "report" 2 None empty_disk
  = (Some (NameError "output_path"),
     {| made_dirs := made_dirs empty_disk ++ ["out" : pystr];
        written := written empty_disk;
        report_log := report_log empty_disk |}).
Proof.
  apply (report_fails_when_several_pages sample_env three_rows "out" "report"
           2%Z None empty_disk).
  - lia.
  - simpl. lia.
Defined.

(** X15.  When the frame has distinct labels and cells that are strings
    or [NaN], at least one row and at most [items_per_page] rows,
    [generate_html_report] writes exactly one file, named after the stem
    of the output path with [.html] and holding the page rendered from
    the whole frame as page 1 of 1, and logs one record for it. *)
Theorem report_single_file env df output_dir base_name items_per_page
    config fs :
  well_formed df →
  (0 < Z.of_nat (df_len df) ≤ items_per_page)%Z →
  ∃ html,
    generate_page_html env df 1 1 (default DEFAULT_CONFIG config) = inr html
    ∧ generate_html_report env df output_dir base_name items_per_page config fs
      = (None,
         {| made_dirs := made_dirs fs ++ [output_dir];
            written := written fs ++ [(output_dir, base_name ++ ".html", html)];
            report_log :=
              report_log fs
              ++ [(INFO, "Generated HTML page: "
                           ++ path_str env output_dir (base_name ++ ".html"))] |}).
Proof.
  intros (_ & Hrect & _) Hn.
  destruct (generate_page_html env df 1 1 (default DEFAULT_CONFIG config))
    as [e|html] eqn:Hpage.
  { unfold generate_page_html in Hpage. simpl in Hpage. discriminate Hpage. }
  exists html. split; [done|].
  unfold generate_html_report.
  assert ((items_per_page =? 0)%Z = false) as -> by lia.
  pose proof (total_pages_bounds (Z.of_nat (df_len df)) items_per_page
                ltac:(lia)) as Hb.
  set (P := ((Z.of_nat (df_len df) + items_per_page - 1) / items_per_page)%Z) in *.
  assert (HP : P = 1%Z) by nia.
  rewrite HP. change (seqZ 0 1) with [0%Z]. cbn [write_pages].
  unfold page_bounds. cbv zeta.
  change (0 * items_per_page)%Z with 0%Z.
  rewrite df_iloc_all by (done || lia).
  change (0 + 1)%Z with 1%Z. rewrite Hpage.
  by change (1 =? 1)%Z with true.
Qed.

Lemma report_single_file_witness :
  ∃ html,
    generate_page_html sample_env two_records 1 1 DEFAULT_CONFIG = inr html
    ∧ generate_html_report sample_env two_records "out" "report" 100 None
        empty_disk
      = (None,
         {| made_dirs := made_dirs empty_disk ++ ["out" : pystr];
            written :=
              written empty_disk ++ [("out" : pystr, "report" ++ ".html", html)];
            report_log :=
              report_log empty_disk
              ++ [(INFO, "Generated HTML page: "
                           ++ path_str sample_env "out" ("report" ++ ".html"))] |}).
Proof.
  apply (report_single_file sample_env two_records "out" "report" 100%Z None
           empty_disk).
  - exact two_records_well_formed.
  - simpl. lia.
Defined.

(** X16.  For a frame without rows (and a positive [items_per_page])
    [generate_html_report] makes the output directory and returns
    without writing any file. *)
Theorem report_of_empty_frame env df output_dir base_name items_per_page
    config fs :
  df_len df = 0 →
  (0 < items_per_page)%Z →
  generate_html_report env df output_dir base_name items_per_page config fs
  = (None,
     {| made_dirs := made_dirs fs ++ [output_dir];
        written := written fs;
        report_log := report_log fs |}).
Proof.
  intros Hlen Hk. unfold generate_html_report. rewrite Hlen.
  assert ((items_per_page =? 0)%Z = false) as -> by lia.
  assert (((Z.of_nat 0 + items_per_page - 1) / items_per_page)%Z = 0%Z) as ->.
  { apply Z.div_small. lia. }
  done.
Qed.

Lemma report_of_empty_frame_witness :
  generate_html_report sample_env
    [("Artist" : pystr, []); ("Title" : pystr, [])] "out" "report" 100 None
    empty_disk
  = (None,
     {| made_dirs := made_dirs empty_disk ++ ["out" : pystr];
        written := written empty_disk;
        report_log := report_log empty_disk |}).
Proof.
  apply (report_of_empty_frame sample_env
           [("Artist" : pystr, []); ("Title" : pystr, [])] "out" "report" 100%Z
           None empty_disk).
  - reflexivity.
  - lia.
Defined.

(** ** What a run of the pipeline logs *)

Lemma link_cell_logged cfg e kw w :
  Spec.templates_ok cfg →
  link_cell cfg e (VStr kw) w
  = (Return (VStr (link_text cfg e kw)),
     {| frame := frame w;
        logged := logged w ++ Spec.unknown_warnings cfg [e] |}).
Proof.
  intros Hok. unfold link_cell, generate_search_links.
  change (engines_or_default cfg (Some [e])) with [e].
  destruct (add_links_run cfg (Lib.quote_plus kw) [e] ∅ w Hok)
    as (links & Hrun & Hdom & Hknown & _).
  rewrite run_bind, Hrun. unfold mret, M_ret. do 3 f_equal.
  unfold link_text.
  destruct (search_engines cfg !! e) as [template|] eqn:He.
  - erewrite Hknown; [done|by left|done].
  - assert (links !! e = None) as ->; [|done].
    apply not_elem_of_dom. rewrite Hdom, dom_empty, elem_of_empty.
    intros [[]|[_ Hd]]. apply elem_of_dom in Hd as [? Hd]. by simplify_eq.
Qed.

Lemma map_each_link_cell_logged cfg e kws w :
  Spec.templates_ok cfg →
  map_each (link_cell cfg e) (map VStr kws) w
  = (Return (link_cells cfg e kws),
     {| frame := frame w;
        logged := logged w
                  ++ flat_map (fun _ => Spec.unknown_warnings cfg [e]) kws |}).
Proof.
  intros Hok. revert w.
  induction kws as [|kw rest IH]; intros w;
    cbn [map map_each link_cells flat_map].
  - by rewrite app_nil_r, world_eta.
  - rewrite run_bind, link_cell_logged by done. cbv beta iota.
    rewrite run_bind, IH. cbn [frame logged]. unfold mret, M_ret.
    by rewrite app_assoc.
Qed.

Lemma for_each_add_link_column_logged cfg engines kws w :
  Spec.templates_ok cfg →
  Spec.titles_ok engines →
  df_lookup (frame w) "Keywords" = Some (map VStr kws) →
  for_each (add_link_column cfg) engines w
  = (Return tt,
     {| frame := write_links cfg kws (frame w) engines;
        logged :=
          logged w
          ++ flat_map
               (fun e => flat_map (fun _ => Spec.unknown_warnings cfg [e]) kws)
               engines |}).
Proof.
  intros Hok Htitles. revert w.
  induction engines as [|e rest IH]; intros w Hkw;
    cbn [for_each write_links fold_left flat_map].
  - by rewrite app_nil_r, world_eta.
  - apply Forall_cons in Htitles as [He Hrest].
    destruct (link_field_label e He) as (titled & Htitled & Hlabel & _).
    rewrite run_bind. unfold add_link_column at 1.
    rewrite (run_return _ _ _ _ _ (get_column_run _ _ _ Hkw)).
    rewrite run_bind, map_each_link_cell_logged by done. cbv beta iota.
    rewrite Htitled, <- Hlabel.
    rewrite set_column_run. cbn [frame logged].
    rewrite IH.
    + cbn [frame logged]. by rewrite app_assoc.
    + done.
    + cbn [frame]. rewrite df_lookup_assign.
      rewrite decide_False; [done|]. apply link_label_not_keywords.
Qed.

(** X17.  A run of [process_dataframe] on a frame with distinct labels
    and resolved columns, for engines whose title-cased identifiers stay
    within U+00FF, adds to the log four information records and then,
    engine by engine in the order of the requests, one warning for
    every row for each requested engine that the registry lacks: an
    unknown engine is reported once per record, not once per batch. *)
Theorem process_dataframe_log cfg artist_col title_col requested w a t :
  Spec.templates_ok cfg →
  NoDup (df_columns (frame w)) →
  Spec.resolved cfg (frame w) artist_col title_col a t →
  Spec.titles_ok (engines_or_default cfg requested) →
  ∃ df' w' kws,
    process_dataframe cfg artist_col title_col requested w = (Return df', w')
    ∧ df_lookup df' "Keywords" = Some (map VStr kws)
    ∧ logged w'
      = logged w
        ++ [(INFO, "Processing " ++ pretty (df_len (frame w)) ++ " records...");
            (INFO, "Using columns: Artist='" ++ a ++ "', Title='" ++ t ++ "'");
            (INFO, "Generating keywords..." : pystr);
            (INFO, "Generating search links for: "
                     ++ Py.join ", " (engines_or_default cfg requested))]
        ++ flat_map
             (fun e => flat_map (fun _ => Spec.unknown_warnings cfg [e]) kws)
             (engines_or_default cfg requested).
Proof.
  intros Hok _ (Hres & Han & Htn & Ha & Ht) Htitles.
  apply df_lookup_is_Some in Ha as [artists Hart].
  apply df_lookup_is_Some in Ht as [titles Htit].
  destruct (engines_or_default_cons cfg requested) as (p & rest & Heng).
  rewrite Heng in Htitles.
  destruct (link_field_label p (Forall_inv Htitles))
    as (titled & Htitled & Hlabel & _).
  set (kws := keyword_texts cfg artists titles).
  set (df0 := df_assign (frame w) "Keywords" (map VStr kws)).
  assert (Hp : is_Some (df_lookup (write_links cfg kws df0 (p :: rest))
                          (link_label p))).
  { apply df_lookup_is_Some, write_links_columns. right. exists p.
    split; [by left|done]. }
  destruct Hp as [cells Hcells].
  eexists _, _, kws.
  unfold process_dataframe. rewrite run_bind.
  change (get_frame w) with (Return (frame w), w). cbv beta iota.
  rewrite Hres, Heng. cbv beta iota.
  destruct a as [|xa a']; [done|]. destruct t as [|xt t']; [done|].
  cbn [truthy negb orb default from_option id].
  unfold Py.contains.
  rewrite !bool_decide_eq_true_2
    by (apply df_lookup_is_Some; eauto).
  cbn [negb].
  rewrite run_bind, log_run. cbv beta iota. cbn [frame logged].
  rewrite run_bind, log_run. cbv beta iota. cbn [frame logged].
  rewrite run_bind, log_run. cbv beta iota. cbn [frame logged].
  erewrite run_return by (apply get_column_run; exact Hart).
  erewrite run_return by (apply get_column_run; exact Htit).
  rewrite run_bind, set_column_run. cbv beta iota. cbn [frame logged].
  rewrite zip_with_VStr. fold kws df0.
  rewrite run_bind, log_run. cbv beta iota. cbn [frame logged].
  rewrite run_bind.
  rewrite (for_each_add_link_column_logged cfg (p :: rest) kws) by
    (done || (cbn [frame]; unfold df0; rewrite df_lookup_assign;
              by rewrite decide_True)).
  cbn [frame logged]. rewrite Htitled, <- Hlabel.
  erewrite run_return by (apply get_column_run; exact Hcells).
  rewrite run_bind, set_column_run. cbv beta iota. cbn [frame logged].
  split; [reflexivity|]. cbn [frame logged]. split.
  - rewrite df_lookup_assign, decide_False by apply search_link_not_keywords.
    rewrite write_links_other by (intros x _; apply link_label_not_keywords).
    unfold df0. by rewrite df_lookup_assign, decide_True.
  - by rewrite <- !app_assoc.
Qed.

Lemma process_dataframe_log_witness :
  ∃ df' w' kws,
    process_dataframe DEFAULT_CONFIG None None
      (Some ["bogus" : pystr; "wikipedia" : pystr]) (fresh two_records)
    = (Return df', w')
    ∧ df_lookup df' "Keywords" = Some (map VStr kws)
    ∧ logged w'
      = logged (fresh two_records)
        ++ [(INFO, "Processing " ++ pretty (df_len (frame (fresh two_records)))
                     ++ " records...");
            (INFO, "Using columns: Artist='" ++ "Artist" ++ "', Title='"
                     ++ "Title" ++ "'");
            (INFO, "Generating keywords..." : pystr);
            (INFO, "Generating search links for: "
                     ++ Py.join ", "
                          (engines_or_default DEFAULT_CONFIG
                             (Some ["bogus" : pystr; "wikipedia" : pystr])))]
        ++ flat_map
             (fun e =>
                flat_map (fun _ => Spec.unknown_warnings DEFAULT_CONFIG [e]) kws)
             (engines_or_default DEFAULT_CONFIG
                (Some ["bogus" : pystr; "wikipedia" : pystr])).
Proof.
  apply (process_dataframe_log DEFAULT_CONFIG None None
           (Some ["bogus" : pystr; "wikipedia" : pystr]) (fresh two_records)
           "Artist" "Title").
  - exact default_templates_ok.
  - exact two_records_distinct.
  - exact default_resolved_two_records.
  - repeat constructor; eexists; reflexivity.
Defined.

(** ** Processing a processed frame again *)

Lemma df_columns_assign_in df c cells :
  c ∈ df_columns df → df_columns (df_assign df c cells) = df_columns df.
Proof.
  unfold df_columns. induction df as [|[d old] rest IH]; simpl.
  - intros H. by apply elem_of_nil in H.
  - intros H. destruct (decide (d = c)) as [->|Hdc]; simpl; [done|].
    f_equal. apply IH. apply elem_of_cons in H as [?|?]; [congruence|done].
Qed.

Lemma df_columns_assign_new df c cells :
  c ∉ df_columns df → df_columns (df_assign df c cells) = df_columns df ++ [c].
Proof.
  unfold df_columns. induction df as [|[d old] rest IH]; simpl; [done|].
  intros H. apply not_elem_of_cons in H as [Hne H].
  rewrite decide_False by done. simpl. f_equal. by apply IH.
Qed.

Lemma df_assign_NoDup df c cells :
  NoDup (df_columns df) → NoDup (df_columns (df_assign df c cells)).
Proof.
  intros Hnd. destruct (decide (c ∈ df_columns df)) as [Hin|Hnin].
  - by rewrite df_columns_assign_in.
  - rewrite df_columns_assign_new by done.
    apply NoDup_app. repeat split; [done| |apply NoDup_singleton].
    intros x Hx ->%list_elem_of_singleton. done.
Qed.

Lemma write_links_NoDup cfg kws df engines :
  NoDup (df_columns df) → NoDup (df_columns (write_links cfg kws df engines)).
Proof.
  revert df. induction engines as [|e rest IH]; intros df Hnd;
    cbn [write_links fold_left]; [done|].
  apply IH. by apply df_assign_NoDup.
Qed.

Lemma write_links_columns_in cfg kws df engines :
  (∀ e, e ∈ engines → link_label e ∈ df_columns df) →
  df_columns (write_links cfg kws df engines) = df_columns df.
Proof.
  revert df. induction engines as [|e rest IH]; intros df Hin;
    cbn [write_links fold_left]; [done|].
  unfold write_links in IH. rewrite IH.
  - apply df_columns_assign_in. apply Hin. by left.
  - intros x Hx. rewrite df_columns_assign_in by (apply Hin; by left).
    apply Hin. by right.
Qed.

(** Two frames with the same distinct labels in the same order and the
    same cells under every label are equal. *)
Lemma frame_ext (d1 d2 : DataFrame) :
  NoDup (df_columns d1) →
  df_columns d1 = df_columns d2 →
  (∀ c, df_lookup d1 c = df_lookup d2 c) →
  d1 = d2.
Proof.
  unfold df_columns. revert d2.
  induction d1 as [|[c1 v1] r1 IH]; intros [|[c2 v2] r2] Hnd Hcols Hlook;
    simpl in *; try discriminate; [done|].
  injection Hcols as <- Hcols. apply NoDup_cons in Hnd as [Hc1 Hnd].
  pose proof (Hlook c1) as H1. simpl in H1.
  rewrite !decide_True in H1 by done. injection H1 as <-.
  f_equal. apply IH; [done|done|].
  intros c. specialize (Hlook c). simpl in Hlook.
  destruct (decide (c1 = c)) as [<-|Hne]; [|done].
  transitivity (@None (list value)); [|symmetry];
    apply eq_None_not_Some; rewrite <- df_lookup_is_Some; unfold df_columns;
    [exact Hc1|intros Hin; apply Hc1; rewrite Hcols; exact Hin].
Qed.

Lemma write_links_agree cfg kws d1 d2 engines c :
  df_lookup d1 c = df_lookup d2 c
  ∨ (∃ e, e ∈ engines ∧ link_label e = c) →
  df_lookup (write_links cfg kws d1 engines) c
  = df_lookup (write_links cfg kws d2 engines) c.
Proof.
  revert d1 d2. induction engines as [|e rest IH]; intros d1 d2 H;
    cbn [write_links fold_left].
  - destruct H as [H|(e & He & _)]; [done|]. by apply elem_of_nil in He.
  - unfold write_links in IH. apply IH.
    rewrite !df_lookup_assign.
    destruct (decide (link_label e = c)) as [Hec|Hec]; [by left|].
    destruct H as [H|(x & Hx & Hxc)]; [by left|].
    apply elem_of_cons in Hx as [->|Hx]; [done|]. right. by exists x.
Qed.

Lemma first_column_agree cols1 cols2 candidates :
  (∀ c, c ∈ candidates → (c ∈ cols1 ↔ c ∈ cols2)) →
  first_column cols1 candidates = first_column cols2 candidates.
Proof.
  induction candidates as [|c rest IH]; intros H; simpl; [done|].
  unfold Py.contains.
  assert (Hc : c ∈ cols1 ↔ c ∈ cols2) by (apply H; by left).
  rewrite IH by (intros x Hx; apply H; by right).
  repeat case_bool_decide; tauto || done.
Qed.

Lemma not_written_label engines (c : pystr) :
  Spec.titles_ok engines →
  not_written engines c
  ↔ c ≠ "Keywords" ∧ c ≠ "Search_Link" ∧ ∀ e, e ∈ engines → link_label e ≠ c.
Proof.
  intros Htitles. unfold not_written.
  split; intros (Hk & Hs & Hl); (split; [done|split; [done|]]).
  - by apply titles_ok_other.
  - intros e He Heq. apply (Hl e He). by apply link_field_Some.
Qed.

(** The labels of the frame after a run. *)
Lemma processed_columns cfg kws df engines cells (c : pystr) :
  Spec.titles_ok engines →
  c ∈ df_columns
        (df_assign
           (write_links cfg kws (df_assign df "Keywords" (map VStr kws)) engines)
           "Search_Link" cells)
  ↔ c ∈ df_columns df ∨ ¬ not_written engines c.
Proof.
  intros Htitles. rewrite (not_written_label engines c Htitles).
  rewrite df_columns_assign, write_links_columns, df_columns_assign.
  destruct (decide (c = "Keywords")) as [->|Hk]; [tauto|].
  destruct (decide (c = "Search_Link")) as [->|Hs]; [tauto|].
  split.
  - intros [?|[[?|?]|(e & He & Hec)]]; try tauto.
    right. intros (_ & _ & H). by apply (H e).
  - intros [?|H]; [tauto|]. right. right.
    destruct (decide (Exists (fun e => link_label e = c) engines))
      as [Hex|Hnex].
    + apply Exists_exists in Hex as (e & He & Hec). by exists e.
    + exfalso. apply H. repeat split; [done|done|].
      intros e He Hec. apply Hnex, Exists_exists. by exists e.
Qed.

(** X18.  Processing a processed frame again changes nothing: when the
    labels are distinct, the title-cased identifiers of the requested
    engines stay within U+00FF, and neither the artist column, the
    title column nor any candidate name is a field that the run writes
    ([Keywords], [Search_Link], or the title-cased identifier of a
    requested engine followed by [_Link]), a second run with the same
    arguments returns the frame that the first run returned. *)
Theorem process_dataframe_twice cfg artist_col title_col requested w a t :
  Spec.templates_ok cfg →
  Spec.resolved cfg (frame w) artist_col title_col a t →
  NoDup (df_columns (frame w)) →
  Spec.titles_ok (engines_or_default cfg requested) →
  not_written (engines_or_default cfg requested) a →
  not_written (engines_or_default cfg requested) t →
  Forall (not_written (engines_or_default cfg requested))
    (artist_columns cfg ++ title_columns cfg) →
  ∃ df' w' w'',
    process_dataframe cfg artist_col title_col requested w = (Return df', w')
    ∧ process_dataframe cfg artist_col title_col requested w' = (Return df', w'').
Proof.
  intros Hok Hres Hnd Htitles Hna Hnt Hcand.
  set (engines := engines_or_default cfg requested) in *.
  destruct (process_dataframe_run cfg artist_col title_col requested
              w a t Hok Htitles Hres)
    as (artists & titles & primary & cells & logs & Hart & Htit & Hhd & H).
  cbv zeta in H. fold engines in H, Hhd. destruct H as [Hcells Hrun].
  set (kws := keyword_texts cfg artists titles) in *.
  set (df1 := df_assign (write_links cfg kws _ engines) "Search_Link" cells) in *.
  assert (Hsame : ∀ c, not_written engines c →
                       df_lookup df1 c = df_lookup (frame w) c).
  { intros c (Hk & Hs & Hl)%not_written_label; [|done]. unfold df1.
    rewrite df_lookup_assign, decide_False by (intros <-; done).
    rewrite write_links_other by done.
    by rewrite df_lookup_assign, decide_False by (intros <-; done). }
  assert (Hmem : ∀ c, not_written engines c →
                      (c ∈ df_columns df1 ↔ c ∈ df_columns (frame w))).
  { intros c Hc. unfold df1. rewrite processed_columns by done. tauto. }
  destruct Hres as (Hres & Han & Htn & Ha & Ht).
  assert (Hres1 : Spec.resolved cfg df1 artist_col title_col a t).
  { split; [|split; [done|split; [done|split; by apply Hmem]]].
    rewrite <- Hres. unfold resolve_columns, detect_columns.
    apply Forall_app in Hcand as [Hca Hct]. rewrite Forall_forall in Hca, Hct.
    rewrite (first_column_agree (df_columns df1) (df_columns (frame w))
               (artist_columns cfg)) by (intros c Hc; by apply Hmem, Hca).
    by rewrite (first_column_agree (df_columns df1) (df_columns (frame w))
                  (title_columns cfg)) by (intros c Hc; by apply Hmem, Hct). }
  destruct (process_dataframe_run cfg artist_col title_col requested
              {| frame := df1; logged := logs |} a t Hok Htitles Hres1)
    as (artists' & titles' & primary' & cells' & logs' & Hart' & Htit' & Hhd' & H).
  cbv zeta in H. cbn [frame] in *. fold engines in H, Hhd'.
  destruct H as [Hcells' Hrun'].
  rewrite Hsame, Hart in Hart' by done. injection Hart' as <-.
  rewrite Hsame, Htit in Htit' by done. injection Htit' as <-.
  rewrite Hhd in Hhd'. injection Hhd' as <-.
  fold kws in Hcells', Hrun'.
  set (df2 := df_assign (write_links cfg kws _ engines) "Search_Link" cells') in *.
  assert (Hprimary : primary ∈ engines).
  { destruct engines as [|p rest]; [done|]. injection Hhd as ->. by left. }
  assert (Hc' : cells' = cells).
  { assert (Some cells' = Some cells) as [= ->]; [|done].
    rewrite <- Hcells', <- Hcells. apply write_links_agree. right.
    by exists primary. }
  assert (Hnd1 : NoDup (df_columns df1)).
  { unfold df1. by apply df_assign_NoDup, write_links_NoDup, df_assign_NoDup. }
  assert (df2 = df1) as Heq.
  { symmetry. apply frame_ext; [done| |].
    - unfold df2. rewrite df_columns_assign_in, write_links_columns_in,
        df_columns_assign_in; [done| | |].
      + apply processed_columns; [done|]. right. intros (Hk & _). done.
      + intros e He. apply df_columns_assign. right.
        apply processed_columns; [done|]. right.
        intros (_ & _ & Hl)%not_written_label; [|done]. by apply (Hl e).
      + apply write_links_columns. left. apply df_columns_assign. right.
        apply processed_columns; [done|]. right. intros (_ & Hs & _). done.
    - intros c. unfold df2. rewrite Hc'.
      destruct (decide (("Search_Link" : pystr) = c)) as [<-|Hs].
      { unfold df1. by rewrite !df_lookup_assign, !decide_True. }
      rewrite (df_lookup_assign _ "Search_Link"), decide_False by done.
      unfold df1 at 1.
      rewrite (df_lookup_assign _ "Search_Link"), decide_False by done.
      apply write_links_agree.
      destruct (decide (("Keywords" : pystr) = c)) as [<-|Hk].
      { left. by rewrite !df_lookup_assign, !decide_True. }
      destruct (decide (Exists (fun e => link_label e = c) engines))
        as [Hex|Hnex].
      { right. apply Exists_exists in Hex as (e & He & Hec). by exists e. }
      left. rewrite !df_lookup_assign, !decide_False by done.
      symmetry. apply Hsame. apply not_written_label; [done|].
      repeat split; [by intros ->|by intros ->|].
      intros e He Hec. apply Hnex, Exists_exists. by exists e. }
  rewrite Heq in Hrun'.
  by eexists _, _, _.
Qed.

Lemma process_dataframe_twice_witness :
  ∃ df' w' w'',
    process_dataframe DEFAULT_CONFIG None None None (fresh two_records)
    = (Return df', w')
    ∧ process_dataframe DEFAULT_CONFIG None None None w' = (Return df', w'').
Proof.
  apply (process_dataframe_twice DEFAULT_CONFIG None None None
           (fresh two_records) "Artist" "Title").
  - exact default_templates_ok.
  - exact default_resolved_two_records.
  - exact two_records_distinct.
  - exact default_titles_ok.
  - repeat split; [discriminate|discriminate|].
    intros e He. apply list_elem_of_singleton in He as ->. discriminate.
  - repeat split; [discriminate|discriminate|].
    intros e He. apply list_elem_of_singleton in He as ->. discriminate.
  - repeat (apply Forall_cons; split;
            [repeat split; [discriminate|discriminate|];
             intros e He; apply list_elem_of_singleton in He as ->; discriminate|]).
    apply Forall_nil_2.
Defined.

(** ** The query of a link *)

Lemma lower_char_ascii c : is_ascii c = true → is_ascii (Py.lower_char c) = true.
Proof.
  destruct c as [[] [] [] [] [] [] [] []]; vm_compute; intros H;
    first [discriminate H | reflexivity].
Qed.

Lemma ascii_clean_quote c :
  is_ascii c = true → clean_char c = true →
  Lib.quote_char c = [if decide (c = " "%char) then "+"%char else c].
Proof.
  destruct c as [[] [] [] [] [] [] [] []]; vm_compute; intros H1 H2;
    first [discriminate H1 | discriminate H2 | reflexivity].
Qed.

Lemma sub_special_Forall (P : ascii → Prop) s :
  P " "%char → Forall P s → Forall P (Re.sub_special s).
Proof.
  intros Hsp. unfold Re.sub_special.
  induction 1 as [|c r Hc Hr IH]; simpl; constructor; [|done].
  by destruct (Re.is_kept c).
Qed.

Lemma sub_spaces_Forall (P : ascii → Prop) in_run s :
  P " "%char → Forall P s → Forall P (Re.sub_spaces_from in_run s).
Proof.
  intros Hsp H. revert in_run.
  induction H as [|c r Hc Hr IH]; intros in_run; simpl; [constructor|].
  destruct (Py.isspace c); [destruct in_run|]; try constructor; auto.
Qed.

Lemma clean_text_ascii s :
  Forall (fun c => is_ascii c = true) s →
  Forall (fun c => is_ascii c = true) (clean_text (VStr s)).
Proof.
  intros Hs. unfold clean_text. destruct (is_blank (VStr s)); [constructor|].
  set (u := Re.sub_spaces _).
  assert (Hu : Forall (fun c => is_ascii c = true) u).
  { apply sub_spaces_Forall; [done|]. apply sub_special_Forall; [done|].
    apply sub_brackets_Forall. simpl. unfold Py.lower.
    apply Forall_fmap. eapply Forall_impl; [exact Hs|].
    intros c. apply lower_char_ascii. }
  destruct (strip_infix u) as (a & b & Hab). rewrite Hab in Hu.
  apply Forall_app in Hu as [_ Hu]. by apply Forall_app in Hu as [Hu _].
Qed.

Lemma join_Forall (P : ascii → Prop) ws :
  P " "%char → Forall (Forall P) ws → Forall P (Py.join " " ws).
Proof.
  intros Hsp. induction 1 as [|w r Hw Hr IH]; [constructor|].
  destruct r as [|w2 r']; [done|].
  change (Py.join " " (w :: w2 :: r'))
    with (w ++ " "%char :: Py.join " " (w2 :: r')).
  apply Forall_app. split; [done|]. by constructor.
Qed.

(** Every character of the keywords stems from the cleaned artist or
    title, or is a separating space. *)
Lemma generate_keywords_Forall (P : ascii → Prop) cfg artist title max_words :
  P " "%char →
  Forall P (clean_text artist) → Forall P (clean_text title) →
  Forall P (generate_keywords cfg artist title max_words).
Proof.
  intros Hsp Ha Ht. unfold generate_keywords. apply join_Forall; [done|].
  apply Forall_forall. intros w [Hw|Hw]%combine_words_elem.
  - eapply elem_of_sublist in Hw; [|apply drop_various_sublist].
    apply field_words_elem in Hw as (_ & _ & Hw).
    pose proof (split_Forall P _ Ha) as H. rewrite Forall_forall in H. auto.
  - apply field_words_elem in Hw as (_ & _ & Hw).
    pose proof (split_Forall P _ Ht) as H. rewrite Forall_forall in H. auto.
Qed.

(** X19.  For an artist and a title of ASCII characters, the query that
    the link builder derives from the keywords is the keywords with
    every space turned into [+]: nothing is percent-escaped. *)
Theorem keywords_query_is_plus_joined cfg a t max_words :
  Forall (fun c => is_ascii c = true) a →
  Forall (fun c => is_ascii c = true) t →
  Lib.quote_plus (generate_keywords cfg (VStr a) (VStr t) max_words)
  = map (fun c => if decide (c = " "%char) then "+"%char else c)
      (generate_keywords cfg (VStr a) (VStr t) max_words).
Proof.
  intros Ha Ht.
  assert (H : Forall (fun c => is_ascii c = true ∧ clean_char c = true)
                (generate_keywords cfg (VStr a) (VStr t) max_words)).
  { apply generate_keywords_Forall; [done| |]; apply Forall_and; split;
      try (by apply clean_text_ascii); apply clean_text_shape. }
  unfold Lib.quote_plus.
  induction H as [|c r [Hc1 Hc2] Hr IH]; [done|].
  simpl. rewrite IH. by rewrite ascii_clean_quote.
Qed.

Lemma keywords_query_is_plus_joined_witness :
  Lib.quote_plus (generate_keywords DEFAULT_CONFIG (VStr "The Beatles")
                    (VStr "Abbey Road") None)
  = map (fun c => if decide (c = " "%char) then "+"%char else c)
      (generate_keywords DEFAULT_CONFIG (VStr "The Beatles")
         (VStr "Abbey Road") None).
Proof.
  apply (keywords_query_is_plus_joined DEFAULT_CONFIG "The Beatles"
           "Abbey Road" None);
    apply (bool_decide_unpack _); vm_compute; exact I.
Defined.

(** ** Brackets in [clean_text] and the order of the columns *)

Lemma lower_char_brackets c :
  Re.is_open (Py.lower_char c) = Re.is_open c
  ∧ Re.is_close (Py.lower_char c) = Re.is_close c
  ∧ Re.is_dot (Py.lower_char c) = Re.is_dot c.
Proof. destruct c as [[] [] [] [] [] [] [] []]; by vm_compute. Qed.

Lemma clean_text_steps s :
  clean_text (VStr s)
  = Py.strip (Re.sub_spaces (Re.sub_special (Re.sub_brackets (Py.lower s)))).
Proof.
  destruct s as [|c r]; [reflexivity|].
  unfold clean_text, is_blank. by rewrite bool_decide_eq_false_2.
Qed.

Lemma closes_at_first_close x c b :
  Forall (fun ch => Re.is_close ch = false ∧ Re.is_dot ch = true) x →
  Re.is_close c = true →
  Re.closes (x ++ c :: b) = true.
Proof.
  intros Hx Hc. induction Hx as [|ch r [H1 H2] Hr IH]; simpl.
  - by rewrite Hc.
  - by rewrite H1, H2, IH.
Qed.

Lemma sub_brackets_inside x c b :
  Forall (fun ch => Re.is_close ch = false ∧ Re.is_dot ch = true) x →
  Re.is_close c = true →
  Re.sub_brackets_from true (x ++ c :: b) = Re.sub_brackets_from false b.
Proof.
  intros Hx Hc. induction Hx as [|ch r [H1 H2] Hr IH]; simpl.
  - by rewrite Hc.
  - by rewrite H1.
Qed.

Lemma sub_brackets_no_open a s :
  Forall (fun ch => Re.is_open ch = false) a →
  Re.sub_brackets_from false (a ++ s) = a ++ Re.sub_brackets_from false s.
Proof.
  induction 1 as [|ch r Hch Hr IH]; simpl; [done|].
  by rewrite Hch, IH.
Qed.

(** X20.  A bracketed aside is dropped from a text of ASCII characters:
    text that stands between an opening bracket and the first closing
    bracket after it on the same line, whatever the two kinds of
    bracket, does not reach the cleaned text, provided no opening
    bracket stands before it.  (Beyond ASCII the lower-casing of a
    letter can depend on its neighbours, which the removal changes.) *)
Theorem clean_text_drops_bracketed a o x c b :
  Forall (fun ch => is_ascii ch = true) (a ++ o :: x ++ c :: b) →
  Forall (fun ch => Re.is_open ch = false) a →
  Re.is_open o = true →
  Forall (fun ch => Re.is_close ch = false ∧ Re.is_dot ch = true) x →
  Re.is_close c = true →
  clean_text (VStr (a ++ o :: x ++ c :: b)) = clean_text (VStr (a ++ b)).
Proof.
  intros _ Ha Ho Hx Hc. rewrite !clean_text_steps. do 3 f_equal.
  unfold Py.lower, Re.sub_brackets.
  rewrite !map_app. cbn [map]. rewrite map_app. cbn [map].
  assert (Ha' : Forall (fun ch => Re.is_open ch = false) (map Py.lower_char a)).
  { apply Forall_fmap. eapply Forall_impl; [exact Ha|]. intros ch H. simpl.
    by destruct (lower_char_brackets ch) as (-> & _ & _). }
  assert (Hx' : Forall (fun ch => Re.is_close ch = false ∧ Re.is_dot ch = true)
                  (map Py.lower_char x)).
  { apply Forall_fmap. eapply Forall_impl; [exact Hx|]. intros ch H. simpl.
    by destruct (lower_char_brackets ch) as (_ & -> & ->). }
  destruct (lower_char_brackets o) as (Ho' & _ & _).
  destruct (lower_char_brackets c) as (_ & Hc' & _).
  rewrite <- Ho' in Ho. rewrite <- Hc' in Hc.
  rewrite !sub_brackets_no_open by done. f_equal.
  cbn [Re.sub_brackets_from].
  rewrite Ho, closes_at_first_close by done. simpl.
  by apply sub_brackets_inside.
Qed.

Lemma clean_text_drops_bracketed_witness :
  clean_text (VStr ("Abbey Road " ++ "("%char :: "Remastered" ++ "]"%char :: " 2009"))
  = clean_text (VStr ("Abbey Road " ++ " 2009")).
Proof.
  apply (clean_text_drops_bracketed "Abbey Road " "("%char "Remastered"
           "]"%char " 2009").
  - apply (bool_decide_unpack _). vm_compute. exact I.
  - apply (bool_decide_unpack _). vm_compute. exact I.
  - reflexivity.
  - apply (bool_decide_unpack _). vm_compute. exact I.
  - reflexivity.
Defined.

(** X21.  Column detection depends only on which labels the frame has,
    not on their order: two frames with the same labels give the same
    artist and title columns. *)
Theorem detect_columns_ignores_order cfg df1 df2 :
  (∀ c, c ∈ df_columns df1 ↔ c ∈ df_columns df2) →
  detect_columns cfg df1 = detect_columns cfg df2.
Proof.
  intros H. unfold detect_columns.
  rewrite (first_column_agree (df_columns df1) (df_columns df2)
             (artist_columns cfg)) by (intros c _; apply H).
  by rewrite (first_column_agree (df_columns df1) (df_columns df2)
                (title_columns cfg)) by (intros c _; apply H).
Qed.

Lemma detect_columns_ignores_order_witness :
  detect_columns DEFAULT_CONFIG
    [("album" : pystr, [VStr "Jazz"]); ("artist" : pystr, [VStr "Queen"])]
  = detect_columns DEFAULT_CONFIG
      [("artist" : pystr, [VStr "Queen"]); ("album" : pystr, [VStr "Jazz"])].
Proof.
  apply (detect_columns_ignores_order DEFAULT_CONFIG
           [("album" : pystr, [VStr "Jazz"]); ("artist" : pystr, [VStr "Queen"])]
           [("artist" : pystr, [VStr "Queen"]); ("album" : pystr, [VStr "Jazz"])]).
  intros c. unfold df_columns. simpl. rewrite !elem_of_cons, !elem_of_nil. tauto.
Defined.
